(** * SpeakTogether: the caption update pipeline and the overlay window

    A shallow embedding of the parts of the SpeakTogether desktop client that
    carry the streaming caption pipeline:

    - [frontend/src/main.js]: the Electron main process, class
      [SpeakTogetherApp], with the caption overlay window life cycle
      ([toggleCaptionOverlay], [createCaptionWindow], [showCaptionWindow],
      [hideCaptionWindow], [destroyCaptionWindow]) and the caption broadcast
      ([updateCaptionText]);
    - the renderer component [App] (the React code that follows the caption
      preload script in [frontend/src/caption-preload.js]): the WebSocket
      message handler [audioWs.onmessage] with its throttles, and
      [updateCaptionOverlay];
    - the buffer processing conditions of the backend audio handler, as far as
      the repository shows them (the "Buffer Processing Logic" listing).

    JavaScript values are modelled as far as the code inspects them
    (truthiness, [typeof], [||]); numbers are binary64 floats, as in
    JavaScript; readings of [Date.now()] are integers. *)

From Stdlib Require Import ZArith NArith Floats List Bool Ascii String Lia.
From stdpp Require Import base option gmap strings list.

Set Warnings "-inexact-float".

Local Open Scope string_scope.
Local Open Scope list_scope.

(** ** JavaScript values *)

Module JS.

(** The values that cross the IPC boundary in a caption payload.  [Int] is an
    integer-valued number: it is used for readings of [Date.now()], which are
    exact. *)
Inductive Val :=
| Undefined
| Null
| Bool (b : bool)
| Num (x : float)
| Int (n : Z)
| Str (s : string).

(** ToBoolean: [undefined], [null], [false], [0], [-0], [NaN] and [''] are
    falsy, everything else is truthy. *)
Definition truthy (v : Val) : bool :=
  match v with
  | Undefined | Null => false
  | Bool b => b
  | Num x => negb (PrimFloat.eqb x 0%float) && negb (PrimFloat.is_nan x)
  | Int n => negb (Z.eqb n 0)
  | Str s => negb (String.eqb s EmptyString)
  end.

(** [a || b] *)
Definition or (a b : Val) : Val := if truthy a then a else b.

(** [typeof v === 'number'] *)
Definition is_number (v : Val) : bool :=
  match v with Num _ | Int _ => true | _ => false end.

(** [typeof v === 'boolean' || v === undefined]: what a field declared
    [f?: boolean] may hold. *)
Definition is_optional_boolean (v : Val) : bool :=
  match v with Undefined | Bool _ => true | _ => false end.

(** A plain object: property names to values.  Reading a property that is
    not there gives [undefined]. *)
Definition get (o : gmap string Val) (k : string) : Val :=
  default Undefined (o !! k).

(** Truthiness of an optional number ([x ? ... : ...] on a field that is a
    number or missing). *)
Definition truthy_number (x : option float) : bool :=
  match x with Some v => truthy (Num v) | None => false end.

(** Truthiness of an optional string. *)
Definition truthy_string (s : option string) : bool :=
  match s with Some v => truthy (Str v) | None => false end.

End JS.

Infix "||'" := JS.or (at level 50, left associativity).

(** ** The main process: [frontend/src/main.js] *)

Module Main.

(** [process.platform], as far as the code distinguishes it. *)
Inductive Platform := darwin | win32 | linux.

(** The Electron calls the caption code makes.  Each of them may throw. *)
Inductive Api :=
| screen_getPrimaryDisplay
| screen_getDisplayMatching
| new_BrowserWindow
| setAlwaysOnTop
| on_event
| loadURL
| loadFile
| show
| hide
| focus
| close
| getBounds
| isVisible
| isAlwaysOnTop
| isDestroyed
| webContents_getURL
| webContents_send.

(** An [Error] object, as far as the code reads it. *)
Record Error := { message : string; stack : string }.

(** The events a caption window has listeners for. *)
Inductive Event :=
| ready_to_show | ev_show | ev_hide | ev_focus | ev_blur | ev_closed
| did_finish_load | did_fail_load.

(** [bilingual_data]: the caption state sent to the overlay window. *)
Record bilingual_data := {
  original : JS.Val;
  translation : JS.Val;
  confidence : JS.Val;
  sourceLanguage : JS.Val;
  targetLanguage : JS.Val;
  fromTranscription : JS.Val;
  isRealTime : JS.Val;
  timestamp : Z
}.

(** A [BrowserWindow], as far as the caption code observes it: what
    [isVisible()], [isAlwaysOnTop()], [isDestroyed()] answer, the listeners
    registered on it, and the ['update-live-caption'] messages its
    [webContents] has been sent, oldest first. *)
Record BrowserWindow := {
  win_visible : bool;
  win_alwaysOnTop : bool;
  win_focused : bool;
  win_loaded : bool;
  win_destroyed : bool;
  win_listeners : list Event;
  win_inbox : list bilingual_data
}.

(** The fields of [SpeakTogetherApp] the caption code uses, and the history
    of platform calls made so far (latest first). *)
Record World := {
  captionWindow : option BrowserWindow;
  captionEnabled : bool;
  calls : list Api
}.

(** What the process runs in: the platform, the build mode, which platform
    calls throw (the [n]-th call of the run, made to a given API, throws the
    error [fails n api] when there is one), and the stack a [new Error(msg)]
    captures. *)
Record Env := {
  platform : Platform;
  isDev : bool;
  fails : nat -> Api -> option Error;
  stack_of : string -> string
}.

(** [new Error(msg)] *)
Definition new_Error (env : Env) (msg : string) : Error :=
  {| message := msg; stack := stack_of env msg |}.

(** The [TypeError] of a method call on [null]. *)
Definition TypeError_null (env : Env) : Error :=
  new_Error env "Cannot read properties of null".

(** *** Computations of the main process: state and exceptions *)

Inductive Outcome (A : Type) :=
| Return (a : A)
| Throw (e : Error).
Arguments Return {A} a.
Arguments Throw {A} e.

Definition M (A : Type) : Type := World -> Outcome A * World.

Definition ret {A} (a : A) : M A := fun w => (Return a, w).

Definition bind {A B} (m : M A) (k : A -> M B) : M B :=
  fun w =>
    match m w with
    | (Return a, w') => k a w'
    | (Throw e, w') => (Throw e, w')
    end.

Definition throw {A} (e : Error) : M A := fun w => (Throw e, w).

(** [try { m } catch (e) { h e }]: what [m] did to the state before it threw
    stays done. *)
Definition try_catch {A} (m : M A) (h : Error -> M A) : M A :=
  fun w =>
    match m w with
    | (Return a, w') => (Return a, w')
    | (Throw e, w') => h e w'
    end.

Declare Scope js_scope.
Delimit Scope js_scope with js.
Notation "'let!' x ':=' m 'in' k" := (bind m (fun x => k))
  (at level 10, x name, m at level 100, k at level 200) : js_scope.
Notation "m1 '>>' m2" := (bind m1 (fun _ => m2))
  (at level 65, right associativity) : js_scope.
Local Open Scope js_scope.

(** Reading and writing the fields of [this]. *)
Definition this_captionWindow : M (option BrowserWindow) :=
  fun w => (Return (captionWindow w), w).

Definition this_captionEnabled : M bool :=
  fun w => (Return (captionEnabled w), w).

Definition set_captionWindow (cw : option BrowserWindow) : M unit :=
  fun w => (Return tt,
            {| captionWindow := cw;
               captionEnabled := captionEnabled w;
               calls := calls w |}).

Definition set_captionEnabled (b : bool) : M unit :=
  fun w => (Return tt,
            {| captionWindow := captionWindow w;
               captionEnabled := b;
               calls := calls w |}).

Section WithEnv.

Variable env : Env.

(** A call into the platform: it is recorded, and it throws when the
    environment says so. *)
Definition platform_call (api : Api) : M unit :=
  fun w =>
    let w' := {| captionWindow := captionWindow w;
                 captionEnabled := captionEnabled w;
                 calls := api :: calls w |} in
    match fails env (length (calls w)) api with
    | Some e => (Throw e, w')
    | None => (Return tt, w')
    end.

(** [this.captionWindow.m(...)] for a method [m] that changes the window:
    a [TypeError] when the handle is [null], otherwise the platform call
    and, when it does not throw, its effect [eff] on the window. *)
Definition method (api : Api) (eff : BrowserWindow -> BrowserWindow) : M unit :=
  let! cw := this_captionWindow in
  match cw with
  | None => throw (TypeError_null env)
  | Some _ =>
      platform_call api >>
      let! cw' := this_captionWindow in
      set_captionWindow (option_map eff cw')
  end.

(** [this.captionWindow.q()] for a method [q] that only reads the window. *)
Definition query {A} (api : Api) (q : BrowserWindow -> A) : M A :=
  let! cw := this_captionWindow in
  match cw with
  | None => throw (TypeError_null env)
  | Some bw => platform_call api >> ret (q bw)
  end.

(** The effects of the window methods. *)
Definition shown (bw : BrowserWindow) : BrowserWindow :=
  {| win_visible := true; win_alwaysOnTop := win_alwaysOnTop bw;
     win_focused := win_focused bw; win_loaded := win_loaded bw;
     win_destroyed := win_destroyed bw;
     win_listeners := win_listeners bw; win_inbox := win_inbox bw |}.

Definition hidden (bw : BrowserWindow) : BrowserWindow :=
  {| win_visible := false; win_alwaysOnTop := win_alwaysOnTop bw;
     win_focused := win_focused bw; win_loaded := win_loaded bw;
     win_destroyed := win_destroyed bw;
     win_listeners := win_listeners bw; win_inbox := win_inbox bw |}.

Definition focused (bw : BrowserWindow) : BrowserWindow :=
  {| win_visible := win_visible bw; win_alwaysOnTop := win_alwaysOnTop bw;
     win_focused := true; win_loaded := win_loaded bw;
     win_destroyed := win_destroyed bw;
     win_listeners := win_listeners bw; win_inbox := win_inbox bw |}.

Definition on_top (bw : BrowserWindow) : BrowserWindow :=
  {| win_visible := win_visible bw; win_alwaysOnTop := true;
     win_focused := win_focused bw; win_loaded := win_loaded bw;
     win_destroyed := win_destroyed bw;
     win_listeners := win_listeners bw; win_inbox := win_inbox bw |}.

Definition loaded (bw : BrowserWindow) : BrowserWindow :=
  {| win_visible := win_visible bw; win_alwaysOnTop := win_alwaysOnTop bw;
     win_focused := win_focused bw; win_loaded := true;
     win_destroyed := win_destroyed bw;
     win_listeners := win_listeners bw; win_inbox := win_inbox bw |}.

Definition closed (bw : BrowserWindow) : BrowserWindow :=
  {| win_visible := false; win_alwaysOnTop := win_alwaysOnTop bw;
     win_focused := false; win_loaded := win_loaded bw;
     win_destroyed := true;
     win_listeners := win_listeners bw; win_inbox := win_inbox bw |}.

Definition listening (ev : Event) (bw : BrowserWindow) : BrowserWindow :=
  {| win_visible := win_visible bw; win_alwaysOnTop := win_alwaysOnTop bw;
     win_focused := win_focused bw; win_loaded := win_loaded bw;
     win_destroyed := win_destroyed bw;
     win_listeners := ev :: win_listeners bw; win_inbox := win_inbox bw |}.

Definition received (d : bilingual_data) (bw : BrowserWindow) : BrowserWindow :=
  {| win_visible := win_visible bw; win_alwaysOnTop := win_alwaysOnTop bw;
     win_focused := win_focused bw; win_loaded := win_loaded bw;
     win_destroyed := win_destroyed bw;
     win_listeners := win_listeners bw; win_inbox := win_inbox bw ++ [d] |}.

(** The window [new BrowserWindow({..., alwaysOnTop: true, show: false})]
    gives. *)
Definition fresh_window : BrowserWindow :=
  {| win_visible := false; win_alwaysOnTop := true;
     win_focused := false; win_loaded := false;
     win_destroyed := false;
     win_listeners := []; win_inbox := [] |}.

(** [showCaptionWindow()] *)
Definition showCaptionWindow : M bool :=
  let! cw := this_captionWindow in
  match cw with
  | None => ret false
  | Some _ =>
      try_catch
        (query getBounds (fun _ => tt) >>
         query isVisible win_visible >>
         method show shown >>
         method focus focused >>
         method setAlwaysOnTop on_top >>
         (match platform env with
          | darwin => method setAlwaysOnTop on_top
          | _ => ret tt
          end) >>
         query getBounds (fun _ => tt) >>
         query isVisible win_visible >>
         query isAlwaysOnTop win_alwaysOnTop >>
         ret true)
        (fun error => ret false)
  end.

(** [hideCaptionWindow()] *)
Definition hideCaptionWindow : M bool :=
  let! cw := this_captionWindow in
  match cw with
  | None => ret false
  | Some _ =>
      try_catch
        (query getBounds (fun _ => tt) >>
         query isVisible win_visible >>
         method hide hidden >>
         query isVisible win_visible >>
         ret true)
        (fun error => ret false)
  end.

(** [createCaptionWindow()].  The [await] on the load is taken as one
    step. *)
Definition createCaptionWindow : M unit :=
  let! cw := this_captionWindow in
  match cw with
  | Some _ => showCaptionWindow >> ret tt
  | None =>
      try_catch
        (platform_call screen_getPrimaryDisplay >>
         platform_call new_BrowserWindow >>
         set_captionWindow (Some fresh_window) >>
         (match platform env with
          | darwin => method setAlwaysOnTop on_top
          | win32 => method setAlwaysOnTop on_top
          | linux => method setAlwaysOnTop on_top
          end) >>
         method on_event (listening ready_to_show) >>
         method on_event (listening ev_show) >>
         method on_event (listening ev_hide) >>
         method on_event (listening ev_focus) >>
         method on_event (listening ev_blur) >>
         method on_event (listening ev_closed) >>
         method on_event (listening did_finish_load) >>
         method on_event (listening did_fail_load) >>
         try_catch
           (if isDev env
            then method loadURL loaded
            else method loadFile loaded)
           (fun loadError =>
              throw (new_Error env
                       (String.append "Failed to load caption content: "
                          (message loadError)))))
        (fun error =>
           let! cw' := this_captionWindow in
           (match cw' with
            | Some _ =>
                try_catch (method close closed) (fun closeError => ret tt) >>
                set_captionWindow None
            | None => ret tt
            end) >>
           throw error)
  end.

(** What [toggleCaptionOverlay] answers: [{success: true, enabled, state}]
    or [{success: false, error, stack}]. *)
Record FinalState := {
  fs_enabled : bool;
  windowExists : bool;
  windowVisible : bool;
  fs_alwaysOnTop : bool
}.

Inductive ToggleResult :=
| Success (enabled : bool) (state : FinalState)
| Failure (error : string) (stack : string).

(** The first statement of the [try] block of [toggleCaptionOverlay]: the
    create, show or hide step. *)
Definition toggle_steps (enabled : bool) : M unit :=
  let! cw := this_captionWindow in
  if enabled then
    match cw with
    | None => createCaptionWindow
    | Some _ => showCaptionWindow >> ret tt
    end
  else
    match cw with
    | Some _ => hideCaptionWindow >> ret tt
    | None => ret tt
    end.

(** The [finalState] object of [toggleCaptionOverlay]. *)
Definition final_verification : M FinalState :=
  let! en := this_captionEnabled in
  let! cw := this_captionWindow in
  let! cw1 := this_captionWindow in
  let! vis := (match cw1 with
               | Some _ => query isVisible win_visible
               | None => ret false
               end) in
  let! cw2 := this_captionWindow in
  let! top := (match cw2 with
               | Some _ => query isAlwaysOnTop win_alwaysOnTop
               | None => ret false
               end) in
  ret {| fs_enabled := en;
         windowExists := match cw with Some _ => true | None => false end;
         windowVisible := vis;
         fs_alwaysOnTop := top |}.

(** [toggleCaptionOverlay(enabled)] *)
Definition toggleCaptionOverlay (enabled : bool) : M ToggleResult :=
  try_catch
    (toggle_steps enabled >>
     set_captionEnabled enabled >>
     let! finalState := final_verification in
     let! en := this_captionEnabled in
     ret (Success en finalState))
    (fun error =>
       try_catch
         (let! cw := this_captionWindow in
          match cw with
          | Some _ => method hide hidden
          | None => ret tt
          end)
         (fun cleanupError => ret tt) >>
       ret (Failure (message error) (stack error))).

(** [destroyCaptionWindow()] *)
Definition destroyCaptionWindow : M unit :=
  try_catch
    (let! cw := this_captionWindow in
     (match cw with
      | Some _ =>
          query getBounds (fun _ => tt) >>
          query isVisible win_visible >>
          method hide hidden >>
          method close closed >>
          set_captionWindow None
      | None => ret tt
      end) >>
     set_captionEnabled false)
    (fun error =>
       set_captionWindow None >>
       set_captionEnabled false).

(** The [bilingual_data] object [updateCaptionText] builds from its
    argument; [now] is the reading of [Date.now()]. *)
Definition make_bilingual_data (now : Z) (data : gmap string JS.Val)
  : bilingual_data :=
  {| original :=
       JS.get data "original" ||' JS.get data "text" ||' JS.Str EmptyString;
     translation :=
       JS.get data "translation" ||' JS.get data "translated"
         ||' JS.Str EmptyString;
     confidence :=
       if JS.is_number (JS.get data "confidence")
       then JS.get data "confidence"
       else JS.Num 0%float;
     sourceLanguage :=
       JS.get data "sourceLanguage" ||' JS.get data "source_language"
         ||' JS.Str "auto";
     targetLanguage :=
       JS.get data "targetLanguage" ||' JS.get data "target_language"
         ||' JS.Str "en";
     fromTranscription := JS.get data "fromTranscription" ||' JS.Bool true;
     isRealTime := JS.get data "isRealTime" ||' JS.Bool true;
     timestamp := now |}.

(** [updateCaptionText(data)] *)
Definition updateCaptionText (now : Z) (data : gmap string JS.Val) : M unit :=
  let! cw := this_captionWindow in
  let! gone := (match cw with
                | None => ret true
                | Some _ => query isDestroyed win_destroyed
                end) in
  if gone then ret tt
  else
    try_catch
      (let bilingual_data := make_bilingual_data now data in
       method webContents_send (received bilingual_data))
      (fun error => ret tt).

(** The ['closed'] listener of the caption window. *)
Definition on_closed : M unit :=
  set_captionWindow None >>
  set_captionEnabled false.

(** The ['ready-to-show'] listener of the caption window. *)
Definition on_ready_to_show : M unit :=
  query getBounds (fun _ => tt) >>
  query isVisible win_visible >>
  query isAlwaysOnTop win_alwaysOnTop >>
  query getBounds (fun _ => tt) >>
  platform_call screen_getDisplayMatching >>
  showCaptionWindow >>
  ret tt.

(** The ['force-show-caption-window'] handler. *)
Definition force_show_caption_window : M bool :=
  try_catch
    (let! cw := this_captionWindow in
     (match cw with
      | None => createCaptionWindow
      | Some _ => ret tt
      end) >>
     showCaptionWindow)
    (fun error => ret false).

(** The caption states the overlay window has been sent so far. *)
Definition delivered (w : World) : list bilingual_data :=
  match captionWindow w with
  | Some bw => win_inbox bw
  | None => []
  end.

End WithEnv.

(** The state [new SpeakTogetherApp()] starts in. *)
Definition initial : World :=
  {| captionWindow := None; captionEnabled := false; calls := [] |}.

(** A platform on which no call throws. *)
Definition reliable (p : Platform) (dev : bool) : Env :=
  {| platform := p; isDev := dev;
     fails := fun _ _ => None;
     stack_of := fun msg => String.append "Error: " msg |}.

End Main.


(** ** The caption window preload script: [frontend/src/caption-preload.js] *)

Module Preload.

(** [processedData]: what the ['update-live-caption'] listener hands to the
    renderer callback for the object [data] the main process sent; [now] is
    the reading of [Date.now()].  The main process sends no [text]
    property. *)
Definition processedData (now : Z) (data : Main.bilingual_data)
  : Main.bilingual_data :=
  {| Main.original :=
       Main.original data ||' JS.Undefined ||' JS.Str EmptyString;
     Main.translation := Main.translation data ||' JS.Str EmptyString;
     Main.confidence :=
       if JS.is_number (Main.confidence data)
       then Main.confidence data
       else JS.Num 0%float;
     Main.sourceLanguage := Main.sourceLanguage data ||' JS.Str "auto";
     Main.targetLanguage := Main.targetLanguage data ||' JS.Str "en";
     Main.timestamp :=
       if JS.truthy (JS.Int (Main.timestamp data))
       then Main.timestamp data
       else now;
     Main.fromTranscription := Main.fromTranscription data ||' JS.Bool false;
     Main.isRealTime := Main.isRealTime data ||' JS.Bool false |}.

End Preload.


(** ** The renderer: component [App]

    The React state the message handler writes, the refs that hold the
    throttle stamps, and the handler [audioWs.onmessage].  The handler is
    installed once, by an effect with no dependencies, so the state variables
    it reads ([sourceLanguage]) are those of the first render. *)

Module Renderer.

(** [translation] of a [transcription] or [transcription_result] payload. *)
Record Translation := {
  text : option string;
  tr_source_language : option string;
  tr_target_language : option string;
  polisher_applied : option bool
}.

(** The payload of a [transcription] message (at top level) and of a
    [transcription_result] message (under [data]). *)
Record Result := {
  transcript : option string;
  res_confidence : option float;
  language_detected : option string;
  service_type : option string;
  res_translation : option Translation
}.

(** What [JSON.parse(event.data)] gives, by [type].  [malformed] is a text
    that does not parse; a sub-object that is missing is [None]. *)
Inductive Message :=
| msg_malformed
| msg_transcription (data : Result)
| msg_audio_chunk (audio_data : option float) (volume_percent : option float)
| msg_audio_session_started
| msg_audio_session_ended
| msg_transcription_result (is_enhancement : bool) (data : option Result)
| msg_error (message : string)
| msg_language_config_updated
| msg_audio_source_status
    (status requested_source actual_source device_name : string)
| msg_other.

Record AppState := {
  isListening : bool;
  transcription : string;
  translation : JS.Val;
  confidence : float;
  translationConfidence : float;
  isTranscribing : bool;
  detectedLanguage : string;
  audioSource : string;
  sourceLanguage : string;
  targetLanguage : string;
  wordsProcessed : Z;
  lastLanguageUpdate : Z;
  lastTranscriptionUpdate : Z
}.

(** What the handler closes over and calls: the [sourceLanguage] of the first
    render, whether [window.electronAPI.updateCaptionText] is there, and
    [Number.prototype.toFixed]. *)
Record UiEnv := {
  closure_sourceLanguage : string;
  has_updateCaptionText : bool;
  toFixed : float -> nat -> string
}.

Definition LANGUAGE_UPDATE_THROTTLE : Z := 425.
Definition TRANSCRIPTION_UPDATE_THROTTLE : Z := 40.

(** The state setters. *)
Definition setIsListening (v : bool) (st : AppState) : AppState :=
  {| isListening := v; transcription := transcription st;
     translation := translation st; confidence := confidence st;
     translationConfidence := translationConfidence st;
     isTranscribing := isTranscribing st;
     detectedLanguage := detectedLanguage st; audioSource := audioSource st;
     sourceLanguage := sourceLanguage st; targetLanguage := targetLanguage st;
     wordsProcessed := wordsProcessed st;
     lastLanguageUpdate := lastLanguageUpdate st;
     lastTranscriptionUpdate := lastTranscriptionUpdate st |}.

Definition setTranscription (v : string) (st : AppState) : AppState :=
  {| isListening := isListening st; transcription := v;
     translation := translation st; confidence := confidence st;
     translationConfidence := translationConfidence st;
     isTranscribing := isTranscribing st;
     detectedLanguage := detectedLanguage st; audioSource := audioSource st;
     sourceLanguage := sourceLanguage st; targetLanguage := targetLanguage st;
     wordsProcessed := wordsProcessed st;
     lastLanguageUpdate := lastLanguageUpdate st;
     lastTranscriptionUpdate := lastTranscriptionUpdate st |}.

Definition setTranslation (v : JS.Val) (st : AppState) : AppState :=
  {| isListening := isListening st; transcription := transcription st;
     translation := v; confidence := confidence st;
     translationConfidence := translationConfidence st;
     isTranscribing := isTranscribing st;
     detectedLanguage := detectedLanguage st; audioSource := audioSource st;
     sourceLanguage := sourceLanguage st; targetLanguage := targetLanguage st;
     wordsProcessed := wordsProcessed st;
     lastLanguageUpdate := lastLanguageUpdate st;
     lastTranscriptionUpdate := lastTranscriptionUpdate st |}.

Definition setConfidence (v : float) (st : AppState) : AppState :=
  {| isListening := isListening st; transcription := transcription st;
     translation := translation st; confidence := v;
     translationConfidence := translationConfidence st;
     isTranscribing := isTranscribing st;
     detectedLanguage := detectedLanguage st; audioSource := audioSource st;
     sourceLanguage := sourceLanguage st; targetLanguage := targetLanguage st;
     wordsProcessed := wordsProcessed st;
     lastLanguageUpdate := lastLanguageUpdate st;
     lastTranscriptionUpdate := lastTranscriptionUpdate st |}.

Definition setTranslationConfidence (v : float) (st : AppState) : AppState :=
  {| isListening := isListening st; transcription := transcription st;
     translation := translation st; confidence := confidence st;
     translationConfidence := v;
     isTranscribing := isTranscribing st;
     detectedLanguage := detectedLanguage st; audioSource := audioSource st;
     sourceLanguage := sourceLanguage st; targetLanguage := targetLanguage st;
     wordsProcessed := wordsProcessed st;
     lastLanguageUpdate := lastLanguageUpdate st;
     lastTranscriptionUpdate := lastTranscriptionUpdate st |}.

Definition setIsTranscribing (v : bool) (st : AppState) : AppState :=
  {| isListening := isListening st; transcription := transcription st;
     translation := translation st; confidence := confidence st;
     translationConfidence := translationConfidence st;
     isTranscribing := v;
     detectedLanguage := detectedLanguage st; audioSource := audioSource st;
     sourceLanguage := sourceLanguage st; targetLanguage := targetLanguage st;
     wordsProcessed := wordsProcessed st;
     lastLanguageUpdate := lastLanguageUpdate st;
     lastTranscriptionUpdate := lastTranscriptionUpdate st |}.

Definition setDetectedLanguage (v : string) (st : AppState) : AppState :=
  {| isListening := isListening st; transcription := transcription st;
     translation := translation st; confidence := confidence st;
     translationConfidence := translationConfidence st;
     isTranscribing := isTranscribing st;
     detectedLanguage := v; audioSource := audioSource st;
     sourceLanguage := sourceLanguage st; targetLanguage := targetLanguage st;
     wordsProcessed := wordsProcessed st;
     lastLanguageUpdate := lastLanguageUpdate st;
     lastTranscriptionUpdate := lastTranscriptionUpdate st |}.

Definition setWordsProcessed (v : Z) (st : AppState) : AppState :=
  {| isListening := isListening st; transcription := transcription st;
     translation := translation st; confidence := confidence st;
     translationConfidence := translationConfidence st;
     isTranscribing := isTranscribing st;
     detectedLanguage := detectedLanguage st; audioSource := audioSource st;
     sourceLanguage := sourceLanguage st; targetLanguage := targetLanguage st;
     wordsProcessed := v;
     lastLanguageUpdate := lastLanguageUpdate st;
     lastTranscriptionUpdate := lastTranscriptionUpdate st |}.

(** [lastLanguageUpdate.current = v] *)
Definition set_lastLanguageUpdate (v : Z) (st : AppState) : AppState :=
  {| isListening := isListening st; transcription := transcription st;
     translation := translation st; confidence := confidence st;
     translationConfidence := translationConfidence st;
     isTranscribing := isTranscribing st;
     detectedLanguage := detectedLanguage st; audioSource := audioSource st;
     sourceLanguage := sourceLanguage st; targetLanguage := targetLanguage st;
     wordsProcessed := wordsProcessed st;
     lastLanguageUpdate := v;
     lastTranscriptionUpdate := lastTranscriptionUpdate st |}.

(** [lastTranscriptionUpdate.current = v] *)
Definition set_lastTranscriptionUpdate (v : Z) (st : AppState) : AppState :=
  {| isListening := isListening st; transcription := transcription st;
     translation := translation st; confidence := confidence st;
     translationConfidence := translationConfidence st;
     isTranscribing := isTranscribing st;
     detectedLanguage := detectedLanguage st; audioSource := audioSource st;
     sourceLanguage := sourceLanguage st; targetLanguage := targetLanguage st;
     wordsProcessed := wordsProcessed st;
     lastLanguageUpdate := lastLanguageUpdate st;
     lastTranscriptionUpdate := v |}.

(** *** String helpers *)

(** White space that [String.prototype.trim] removes, within ASCII. *)
Definition is_space (c : ascii) : bool :=
  let n := nat_of_ascii c in
  Nat.eqb n 32 || (Nat.leb 9 n && Nat.leb n 13).

Fixpoint trimStart (s : string) : string :=
  match s with
  | EmptyString => EmptyString
  | String c r => if is_space c then trimStart r else s
  end.

Definition reverse_string (s : string) : string :=
  string_of_list_ascii (List.rev (list_ascii_of_string s)).

(** [s.trim()] *)
Definition trim (s : string) : string :=
  reverse_string (trimStart (reverse_string (trimStart s))).

(** [s.split(' ').length] *)
Fixpoint split_length (s : string) : Z :=
  match s with
  | EmptyString => 1
  | String c r =>
      if Ascii.eqb c " "%char then (1 + split_length r)%Z else split_length r
  end.

(** [s.toUpperCase()], within ASCII. *)
Definition upper (c : ascii) : ascii :=
  let n := nat_of_ascii c in
  if Nat.leb 97 n && Nat.leb n 122 then ascii_of_nat (n - 32) else c.

Fixpoint toUpperCase (s : string) : string :=
  match s with
  | EmptyString => EmptyString
  | String c r => String (upper c) (toUpperCase r)
  end.

(** A property that is a string or missing, as a value. *)
Definition of_string (s : option string) : JS.Val :=
  match s with Some v => JS.Str v | None => JS.Undefined end.

(** [x ? x * 100 : 0] *)
Definition percent (x : option float) : float :=
  match x with
  | Some v => if JS.truthy (JS.Num v) then (v * 100)%float else 0%float
  | None => 0%float
  end.

(** [t && t.trim()], as a condition. *)
Definition nonblank (t : option string) : bool :=
  match t with
  | Some v => JS.truthy (JS.Str v) && JS.truthy (JS.Str (trim v))
  | None => false
  end.

(** [translation && translation.text], as a condition. *)
Definition has_text (t : option Translation) : bool :=
  match t with
  | Some tr => JS.truthy_string (text tr)
  | None => false
  end.

(** The state of the first render. *)
Definition initial : AppState :=
  {| isListening := false; transcription := EmptyString;
     translation := JS.Str EmptyString;
     confidence := 0%float; translationConfidence := 0%float;
     isTranscribing := false; detectedLanguage := "EN";
     audioSource := "microphone"; sourceLanguage := "en";
     targetLanguage := "en"; wordsProcessed := 0%Z;
     lastLanguageUpdate := 0%Z; lastTranscriptionUpdate := 0%Z |}.

(** [audio_config] of the [start_capture] message [toggleListening] sends. *)
Record AudioConfig := {
  sample_rate : Z;
  channels : Z;
  chunk_size : Z;
  buffer_duration : float;
  audio_source : string;
  source_language : string;
  target_language : string
}.

Definition start_capture (st : AppState) : AudioConfig :=
  {| sample_rate := 16000;
     channels := if String.eqb (audioSource st) "system" then 2 else 1;
     chunk_size := 1024;
     buffer_duration := 1.0%float;
     audio_source := audioSource st;
     source_language := sourceLanguage st;
     target_language := targetLanguage st |}.

Section Handler.

Variable ue : UiEnv.

(** [updateCaptionOverlay(original, translated, confidence)]: the objects it
    passes to [window.electronAPI.updateCaptionText]; [now] is the reading of
    [Date.now()]. *)
Definition updateCaptionOverlay (now : Z) (original translated : JS.Val)
    (confidence : float) : list (gmap string JS.Val) :=
  if has_updateCaptionText ue then
    [ list_to_map
        [ ("original", original);
          ("translation", translated ||' JS.Str EmptyString);
          ("confidence", JS.Num confidence);
          ("fromTranscription", JS.Bool true);
          ("timestamp", JS.Int now);
          ("language", JS.Str (closure_sourceLanguage ue) ||' JS.Str "en");
          ("isRealTime", JS.Bool true) ] ]
  else [].

(** [c ? `${(c * 100).toFixed(1)}%` : 'N/A'] *)
Definition confidence_label (c : option float) : string :=
  match c with
  | Some v =>
      if JS.truthy (JS.Num v)
      then String.append (toFixed ue (v * 100)%float 1) "%"
      else "N/A"
  | None => "N/A"
  end.

(** [`${lang} (${label})`] *)
Definition language_label (lang label : string) : string :=
  String.append lang (String.append " (" (String.append label ")")).

Definition translation_text (t : option Translation) : string :=
  match t with
  | Some tr => default EmptyString (text tr)
  | None => EmptyString
  end.

(** The branch [data.type === 'transcription']. *)
Definition on_transcription (now : Z) (data : Result) (st : AppState)
  : AppState * list (gmap string JS.Val) :=
  if (now - lastTranscriptionUpdate st >? TRANSCRIPTION_UPDATE_THROTTLE)%Z then
    let '(st2, sent) :=
      if nonblank (transcript data) then
        let t := default EmptyString (transcript data) in
        let st := setTranscription t st in
        let st := setConfidence (percent (res_confidence data)) st in
        let '(st1, sent) :=
          if has_text (res_translation data) then
            let tx := translation_text (res_translation data) in
            let st := setTranslation (JS.Str tx) st in
            let st := setTranslationConfidence 85%float st in
            let st := setWordsProcessed (split_length t) st in
            (st, updateCaptionOverlay now (JS.Str t) (JS.Str tx)
                   (percent (res_confidence data)))
          else
            let st := setTranslation (JS.Str EmptyString) st in
            let st := setTranslationConfidence 0%float st in
            let st := setWordsProcessed (split_length t) st in
            (st, updateCaptionOverlay now (JS.Str t) (JS.Str EmptyString)
                   (percent (res_confidence data))) in
        let sourceLang := toUpperCase (closure_sourceLanguage ue) in
        (setDetectedLanguage
           (language_label sourceLang (confidence_label (res_confidence data)))
           st1,
         sent)
      else (st, []) in
    (set_lastTranscriptionUpdate now st2, sent)
  else (st, []).

(** The branch [data.type === 'transcription_result'] after the enhancement
    case: "regular transcription results". *)
Definition on_transcription_result (now : Z) (result : Result) (st : AppState)
  : AppState * list (gmap string JS.Val) :=
  let '(st3, sent) :=
    if (now - lastTranscriptionUpdate st
        >? TRANSCRIPTION_UPDATE_THROTTLE)%Z then
      let '(st2, sent) :=
        if nonblank (transcript result) then
          let t := default EmptyString (transcript result) in
          let st := setTranscription t st in
          let st := setConfidence (percent (res_confidence result)) st in
          let '(st1, sent) :=
            if has_text (res_translation result) then
              let tx := translation_text (res_translation result) in
              let st := setTranslation (JS.Str tx) st in
              let polisherApplied :=
                match res_translation result with
                | Some tr => default false (polisher_applied tr)
                | None => false
                end in
              let st :=
                setTranslationConfidence
                  (if polisherApplied then 85%float else 75%float) st in
              let st := setWordsProcessed (split_length t) st in
              (st, updateCaptionOverlay now (JS.Str t) (JS.Str tx)
                     (percent (res_confidence result)))
            else
              let st := setTranslation (JS.Str EmptyString) st in
              let st := setTranslationConfidence 0%float st in
              let st := setWordsProcessed (split_length t) st in
              (st, updateCaptionOverlay now (JS.Str t) (JS.Str EmptyString)
                     (percent (res_confidence result))) in
          let lang :=
            if JS.truthy_string (language_detected result)
            then default EmptyString (language_detected result)
            else closure_sourceLanguage ue in
          (setDetectedLanguage
             (language_label (toUpperCase lang)
                (confidence_label (res_confidence result)))
             st1,
           sent)
        else (st, []) in
      (set_lastTranscriptionUpdate now st2, sent)
    else (st, []) in
  (setIsTranscribing false st3, sent).

(** The enhancement case of the branch [data.type === 'transcription_result']:
    [data.is_enhancement && result.translation] holds, with [tr] the
    translation object. *)
Definition on_enhancement (now : Z) (result : Result) (tr : Translation)
    (st : AppState) : AppState * list (gmap string JS.Val) :=
  let st := setTranslation (of_string (text tr)) st in
  let st := setTranslationConfidence 90%float st in
  (st, updateCaptionOverlay now (of_string (transcript result))
         (of_string (text tr)) (percent (res_confidence result))).

(** The branch [data.type === 'audio_chunk']. *)
Definition on_audio_chunk (now : Z) (volume : float) (st : AppState)
  : AppState :=
  if PrimFloat.ltb 10%float volume
     && (now - lastLanguageUpdate st >? LANGUAGE_UPDATE_THROTTLE)%Z
  then
    let lang := toUpperCase (closure_sourceLanguage ue) in
    let st :=
      setDetectedLanguage
        (language_label lang (String.append (toFixed ue volume 0) "%")) st in
    set_lastLanguageUpdate now st
  else st.

(** The branch [data.type === 'audio_source_status']. *)
Definition on_audio_source_status
    (status requested_source actual_source device_name : string)
    (st : AppState) : AppState :=
  if String.eqb status "fallback" && String.eqb requested_source "system"
     && String.eqb actual_source "microphone"
  then setDetectedLanguage "MICROPHONE (fallback from system audio)" st
  else if String.eqb status "success" && String.eqb actual_source "system"
  then
    setDetectedLanguage
      (String.append "SYSTEM AUDIO (" (String.append device_name ")")) st
  else st.

(** [audioWs.onmessage]: the new state and the objects passed to
    [updateCaptionText] while handling the message; [now] is the reading of
    [Date.now()].  A [TypeError] on a missing sub-object is raised before any
    state is written and is caught by the handler, as is a text that does not
    parse. *)
Definition onmessage (now : Z) (msg : Message) (st : AppState)
  : AppState * list (gmap string JS.Val) :=
  match msg with
  | msg_malformed => (st, [])
  | msg_transcription data => on_transcription now data st
  | msg_audio_chunk (Some _) (Some volume) => (on_audio_chunk now volume st, [])
  | msg_audio_chunk _ _ => (st, [])
  | msg_audio_session_started => (setIsListening true st, [])
  | msg_audio_session_ended => (setIsListening false st, [])
  | msg_transcription_result is_enhancement (Some result) =>
      match (if is_enhancement then res_translation result else None) with
      | Some tr => on_enhancement now result tr st
      | None => on_transcription_result now result st
      end
  | msg_transcription_result is_enhancement None =>
      (* [data.data] is undefined: reading [result.translation] or
         [result.transcript] throws a TypeError, which the handler's [catch]
         logs; nothing is read when [data.is_enhancement] is falsy and the
         gate is closed, and [setIsTranscribing(false)] runs. *)
      if is_enhancement
         || (now - lastTranscriptionUpdate st
             >? TRANSCRIPTION_UPDATE_THROTTLE)%Z
      then (st, [])
      else (setIsTranscribing false st, [])
  | msg_error _ => (setIsListening false st, [])
  | msg_language_config_updated => (st, [])
  | msg_audio_source_status status requested actual device =>
      (on_audio_source_status status requested actual device st, [])
  | msg_other => (st, [])
  end.

(** A run of the handler over the messages of a session, each with the clock
    reading at its arrival: the final state and, per message, what was passed
    to [updateCaptionText]. *)
Fixpoint run (events : list (Z * Message)) (st : AppState)
  : AppState * list (list (gmap string JS.Val)) :=
  match events with
  | [] => (st, [])
  | (now, msg) :: rest =>
      let '(st1, sent) := onmessage now msg st in
      let '(st2, sents) := run rest st1 in
      (st2, sent :: sents)
  end.

End Handler.

End Renderer.


(** ** The two processes together

    A caption payload the renderer passes to [updateCaptionText] crosses the
    IPC channel and is handled by the main process, which reads its own
    clock. *)

Module Pipeline.

Record System := {
  ui : Renderer.AppState;
  proc : Main.World
}.

(** A message of the audio socket, with the clock readings of the renderer
    when it handles the message and of the main process when it handles the
    resulting IPC calls. *)
Record Arrival := {
  at_renderer : Z;
  at_main : Z;
  message : Renderer.Message
}.

(** The IPC calls of one message, handled in order.  When the handler throws
    the promise is rejected and the renderer logs it; what the handler did
    before stays done. *)
Fixpoint deliver (env : Main.Env) (now : Z) (sent : list (gmap string JS.Val))
    (w : Main.World) : Main.World :=
  match sent with
  | [] => w
  | data :: rest =>
      deliver env now rest (snd (Main.updateCaptionText env now data w))
  end.

Definition handle (env : Main.Env) (ue : Renderer.UiEnv) (a : Arrival)
    (s : System) : System :=
  let '(st, sent) := Renderer.onmessage ue (at_renderer a) (message a) (ui s) in
  {| ui := st; proc := deliver env (at_main a) sent (proc s) |}.

Definition handle_all (env : Main.Env) (ue : Renderer.UiEnv)
    (arrivals : list Arrival) (s : System) : System :=
  fold_left (fun s a => handle env ue a s) arrivals s.

(** The caption state the overlay window was sent last. *)
Definition shown_caption (s : System) : option Main.bilingual_data :=
  last (Main.delivered (proc s)).

End Pipeline.

(** ** The audio segmenter

    The repository shows the backend buffer handler only through the listing
    "Buffer Processing Logic" (the conditions under which the buffer is
    processed) and its settings.  Durations are in milliseconds, loudness in
    percent; both are natural numbers. *)

Module Segmenter.

Local Open Scope N_scope.

(** The comparison of the listing, written the way the listing has it. *)
Local Notation "x >=? y" := (N.leb y x) (at level 70, no associativity)
  : N_scope.
Local Notation "x >? y" := (N.ltb y x) (at level 70, no associativity)
  : N_scope.

Record Config := {
  target_buffer_duration : N;
  max_buffer_duration : N;
  min_buffer_duration : N;
  silence_threshold : N;
  volume_threshold : N
}.

(** [SPEECH_BUFFER_TARGET_DURATION = 5.0] and the other settings. *)
Definition defaults : Config :=
  {| target_buffer_duration := 5000;
     max_buffer_duration := 15000;
     min_buffer_duration := 2000;
     silence_threshold := 1500;
     volume_threshold := 20 |}.

Inductive process_reason :=
| max_duration_reached
| silence_break_detected
| target_duration_reached.

(** The "enhanced processing conditions" of the listing. *)
Definition process_reason_of (c : Config) (buffer_duration silence_duration : N)
  : option process_reason :=
  if buffer_duration >=? max_buffer_duration c then
    Some max_duration_reached
  else if (buffer_duration >=? min_buffer_duration c)
          && (silence_duration >=? silence_threshold c) then
    Some silence_break_detected
  else if buffer_duration >=? target_buffer_duration c then
    Some target_duration_reached
  else None.

(** Modelled from the spec: an audio frame, a PCM buffer of fixed size with
    the loudness captured for it; the handler that receives the frames is not
    among the sources. *)
Record AudioFrame := {
  loudness : N
}.

(** Modelled from the spec: the time a frame spans, in milliseconds, given
    the session's audio configuration: [chunk_size] samples at [sample_rate]
    samples per second. *)
Definition frame_duration (sample_rate chunk_size : N) : N :=
  chunk_size * 1000 / sample_rate.

(** Modelled from the spec: an emitted segment, with its duration and the
    condition that made the handler emit it. *)
Record SpeechSegment := {
  duration : N;
  reason : process_reason
}.

(** Modelled from the spec: the state the segmenter keeps per session. *)
Record State := {
  bufferDuration : N;
  silenceDuration : N
}.

(** Modelled from the spec: the loop around the processing conditions, which
    is in [backend/src/audio/stream_handler.py] and not among the sources.
    [ingest] adds the frame, which spans [d] milliseconds, to the buffer;
    [bufferDuration] is the time since the segment started,
    [silenceDuration] the time since the loudness last exceeded the volume
    threshold; when a condition holds the buffer is emitted as a segment of
    that duration and reset. *)
Definition ingest (c : Config) (d : N) (f : AudioFrame) (st : State)
  : option SpeechSegment * State :=
  let b := bufferDuration st + d in
  let s := if loudness f >? volume_threshold c then 0
           else silenceDuration st + d in
  match process_reason_of c b s with
  | Some r =>
      (Some {| duration := b; reason := r |},
       {| bufferDuration := 0; silenceDuration := s |})
  | None => (None, {| bufferDuration := b; silenceDuration := s |})
  end.

(** Modelled from the spec: the segments a frame sequence makes the segmenter
    emit, in order. *)
Fixpoint emitted (c : Config) (d : N) (frames : list AudioFrame) (st : State)
  : list SpeechSegment :=
  match frames with
  | [] => []
  | f :: rest =>
      match ingest c d f st with
      | (Some seg, st') => seg :: emitted c d rest st'
      | (None, st') => emitted c d rest st'
      end
  end.

Definition start : State := {| bufferDuration := 0; silenceDuration := 0 |}.

End Segmenter.


(** * Properties

    First what the statements are written with, then the statements. *)

Module MainScenario.
Import Main.

(** The computation leaves [this.captionEnabled] as it found it. *)
Definition keeps_enabled {A} (m : M A) : Prop :=
  forall w, captionEnabled (snd (m w)) = captionEnabled w.

(** The computation does not throw. *)
Definition returns {A} (m : M A) : Prop :=
  forall w, exists a w', m w = (Return a, w').

Definition load_error : Error :=
  {| message := "ERR_FILE_NOT_FOUND"; stack := "Error: ERR_FILE_NOT_FOUND" |}.

Definition destroyed_error : Error :=
  {| message := "Object has been destroyed";
     stack := "TypeError: Object has been destroyed" |}.

(** A platform on which the caption page cannot be loaded. *)
Definition load_fails : Env :=
  {| platform := darwin; isDev := false;
     fails := fun _ api =>
       match api with loadFile | loadURL => Some load_error | _ => None end;
     stack_of := fun msg => String.append "Error: " msg |}.

(** A platform on which [isVisible()] throws. *)
Definition isVisible_fails : Env :=
  {| platform := linux; isDev := false;
     fails := fun _ api =>
       match api with isVisible => Some destroyed_error | _ => None end;
     stack_of := fun msg => String.append "Error: " msg |}.

(** What [createCaptionWindow] throws on [load_fails], and the state it
    leaves. *)
Definition load_failure : Error :=
  {| message := "Failed to load caption content: ERR_FILE_NOT_FOUND";
     stack := "Error: Failed to load caption content: ERR_FILE_NOT_FOUND" |}.

Definition after_load_failure : World :=
  {| captionWindow := None; captionEnabled := false;
     calls := [close; loadFile; on_event; on_event; on_event; on_event;
               on_event; on_event; on_event; on_event; setAlwaysOnTop;
               new_BrowserWindow; screen_getPrimaryDisplay] |}.

(** A caption payload whose caller says it is neither from a transcription
    nor real time. *)
Definition denying_payload : gmap string JS.Val :=
  list_to_map [("original", JS.Str "Hi");
               ("fromTranscription", JS.Bool false);
               ("isRealTime", JS.Bool false)].

(** A caption payload whose flags are the strings ["false"], as a caller
    that serialises its booleans sends them. *)
Definition quoted_payload : gmap string JS.Val :=
  list_to_map [("original", JS.Str "Hi");
               ("fromTranscription", JS.Str "false");
               ("isRealTime", JS.Str "false")].

End MainScenario.

Module RendererScenario.
Import Renderer.

(** The message goes through the transcription throttle: it is a
    [transcription] message or a [transcription_result] message that is not
    handled as an enhancement. *)
Definition throttled (msg : Message) : bool :=
  match msg with
  | msg_transcription _ => true
  | msg_transcription_result is_enhancement (Some result) =>
      match (if is_enhancement then res_translation result else None) with
      | Some _ => false
      | None => true
      end
  | _ => false
  end.

(** The handler accepted the message as a transcription update: it stamped
    [lastTranscriptionUpdate]. *)
Definition accepted (ue : UiEnv) (now : Z) (msg : Message) (st : AppState)
  : bool :=
  negb (lastTranscriptionUpdate (fst (onmessage ue now msg st))
        =? lastTranscriptionUpdate st)%Z.

(** The clock readings of the messages of a run that were accepted. *)
Fixpoint accepted_times (ue : UiEnv) (events : list (Z * Message))
    (st : AppState) : list Z :=
  match events with
  | [] => []
  | (now, msg) :: rest =>
      let st1 := fst (onmessage ue now msg st) in
      if accepted ue now msg st
      then now :: accepted_times ue rest st1
      else accepted_times ue rest st1
  end.

(** [t] lies in the window of 40 ms that starts at [start], ends included. *)
Definition in_window (start t : Z) : bool :=
  (start <=? t)%Z && (t <=? start + TRANSCRIPTION_UPDATE_THROTTLE)%Z.

(** What of the state the captions are made of. *)
Definition caption_view (st : AppState)
  : string * JS.Val * float * float * string * Z * Z :=
  (transcription st, translation st, confidence st, translationConfidence st,
   detectedLanguage st, wordsProcessed st, lastTranscriptionUpdate st).

(** Two states that differ at most in [isTranscribing]. *)
Definition same_captions (st st' : AppState) : Prop :=
  setIsTranscribing false st = setIsTranscribing false st'.

End RendererScenario.

Module Scenario.
Import Renderer Pipeline.

(** The renderer inside Electron, first rendered with source language "en". *)
Definition electron : UiEnv :=
  {| closure_sourceLanguage := "en";
     has_updateCaptionText := true;
     toFixed := fun _ _ => "0" |}.

Definition env : Main.Env := Main.reliable Main.linux false.

(** The main process after [toggleCaptionOverlay(true)] on a reliable
    platform. *)
Definition overlay_on : Main.World :=
  snd (Main.toggleCaptionOverlay env true Main.initial).

Definition session : System :=
  {| ui := Renderer.initial; proc := overlay_on |}.

(** The session after the user chose Spanish as the target language. *)
Definition session_en_es : System :=
  {| ui := {| isListening := false; transcription := EmptyString;
              translation := JS.Str EmptyString;
              confidence := 0%float; translationConfidence := 0%float;
              isTranscribing := false; detectedLanguage := "EN";
              audioSource := "microphone"; sourceLanguage := "en";
              targetLanguage := "es"; wordsProcessed := 0%Z;
              lastLanguageUpdate := 0%Z; lastTranscriptionUpdate := 0%Z |};
     proc := overlay_on |}.

Definition utterance (t : string) (c : option float) (tr : option string)
  : Result :=
  {| transcript := Some t; res_confidence := c; language_detected := None;
     service_type := None;
     res_translation :=
       match tr with
       | Some x => Some {| text := Some x; tr_source_language := None;
                           tr_target_language := None;
                           polisher_applied := None |}
       | None => None
       end |}.

(** TranscriptionEvent(original="Hola", translation='', t=100) *)
Definition hola : Arrival :=
  {| at_renderer := 100; at_main := 100;
     message :=
       msg_transcription_result false (Some (utterance "Hola" None None)) |}.

(** EnhancementEvent(refersTo="Hola", improved="Hello", t=250) *)
Definition hello : Arrival :=
  {| at_renderer := 250; at_main := 250;
     message :=
       msg_transcription_result true
         (Some (utterance "Hola" None (Some "Hello"))) |}.

(** A later TranscriptionEvent, at t=200. *)
Definition adios : Arrival :=
  {| at_renderer := 200; at_main := 200;
     message :=
       msg_transcription_result false
         (Some (utterance "Adios" None (Some "Goodbye"))) |}.

(** A TranscriptionEvent with confidence 0.92. *)
Definition confident : Arrival :=
  {| at_renderer := 1000; at_main := 1001;
     message :=
       msg_transcription_result false
         (Some (utterance "Hello" (Some 0.92%float) (Some "Hola"))) |}.

(** Three transcription messages, 20 ms and 30 ms apart. *)
Definition burst : list (Z * Message) :=
  [ (100%Z, msg_transcription (utterance "uno" None None));
    (120%Z, msg_transcription (utterance "uno dos" None None));
    (150%Z, msg_transcription (utterance "uno dos tres" None None)) ].

End Scenario.

Module SegmenterScenario.
Import Segmenter.

(** The frames of the client's audio configuration, 1024 samples at 16 kHz:
    64 ms each. *)
Definition chunk : N := frame_duration 16000 1024.

Definition speech : AudioFrame := {| loudness := 50 |}.
Definition silence : AudioFrame := {| loudness := 5 |}.

(** Settings in which the target and the maximum coincide, at 5 s. *)
Definition tight : Config :=
  {| target_buffer_duration := 5000;
     max_buffer_duration := 5000;
     min_buffer_duration := 2000;
     silence_threshold := 1500;
     volume_threshold := 20 |}.

(** Settings with the former target of 1 s, below the minimum of 2 s. *)
Definition hasty : Config :=
  {| target_buffer_duration := 1000;
     max_buffer_duration := 15000;
     min_buffer_duration := 2000;
     silence_threshold := 1500;
     volume_threshold := 20 |}.

(** About 2 s of speech followed by about 1.5 s of silence. *)
Definition pause : list AudioFrame :=
  repeat speech 32 ++ repeat silence 24.

Definition pause_segment : SpeechSegment :=
  {| duration := 3584; reason := silence_break_detected |}.

End SegmenterScenario.

(** ** The overlay window *)

Section MainFacts.
Import Main MainScenario.

Variable env : Env.

(** Running a computation on a state given by its fields. *)
Ltac exec :=
  cbv beta iota zeta delta
      [destroyCaptionWindow toggleCaptionOverlay toggle_steps
       final_verification showCaptionWindow hideCaptionWindow
       updateCaptionText createCaptionWindow
       method query platform_call try_catch bind ret throw
       this_captionWindow this_captionEnabled
       set_captionWindow set_captionEnabled
       captionWindow captionEnabled calls option_map fst snd delivered].

(** One case per outcome of each platform call on the way. *)
Ltac path :=
  repeat match goal with
    | |- context [fails ?e ?n ?a] => destruct (fails e n a) eqn:?; exec
    | |- context [platform ?e] => destruct (platform e) eqn:?; exec
    | |- context [isDev ?e] => destruct (isDev e) eqn:?; exec
    end.

Lemma keeps_enabled_ret A (a : A) : keeps_enabled (ret a).
Proof. intros w. reflexivity. Qed.

Lemma keeps_enabled_throw A e : keeps_enabled (@throw A e).
Proof. intros w. reflexivity. Qed.

Lemma keeps_enabled_bind A B (m : M A) (k : A -> M B) :
  keeps_enabled m -> (forall a, keeps_enabled (k a)) ->
  keeps_enabled (bind m k).
Proof.
  intros Hm Hk w. unfold bind. specialize (Hm w).
  destruct (m w) as [[a|e] w1]; simpl in *.
  - rewrite Hk. exact Hm.
  - exact Hm.
Qed.

Lemma keeps_enabled_try_catch A (m : M A) h :
  keeps_enabled m -> (forall e, keeps_enabled (h e)) ->
  keeps_enabled (try_catch m h).
Proof.
  intros Hm Hh w. unfold try_catch. specialize (Hm w).
  destruct (m w) as [[a|e] w1]; simpl in *.
  - exact Hm.
  - rewrite Hh. exact Hm.
Qed.

Lemma keeps_enabled_this_captionWindow : keeps_enabled this_captionWindow.
Proof. intros w. reflexivity. Qed.

Lemma keeps_enabled_this_captionEnabled : keeps_enabled this_captionEnabled.
Proof. intros w. reflexivity. Qed.

Lemma keeps_enabled_set_captionWindow cw :
  keeps_enabled (set_captionWindow cw).
Proof. intros w. reflexivity. Qed.

Lemma keeps_enabled_platform_call api : keeps_enabled (platform_call env api).
Proof.
  intros w. unfold platform_call. destruct (fails env _ api); reflexivity.
Qed.

Create HintDb keeps.
#[local] Hint Resolve keeps_enabled_ret keeps_enabled_throw
  keeps_enabled_this_captionWindow keeps_enabled_this_captionEnabled
  keeps_enabled_set_captionWindow keeps_enabled_platform_call : keeps.

Ltac keeps :=
  repeat first
    [ progress intros
    | match goal with
      | |- keeps_enabled (match ?x with _ => _ end) => destruct x
      end
    | apply keeps_enabled_bind
    | apply keeps_enabled_try_catch
    | solve [auto with keeps] ].

Lemma keeps_enabled_method api eff : keeps_enabled (method env api eff).
Proof. unfold method. keeps. Qed.

Lemma keeps_enabled_query A api (q : BrowserWindow -> A) :
  keeps_enabled (query env api q).
Proof. unfold query. keeps. Qed.

#[local] Hint Resolve keeps_enabled_method keeps_enabled_query : keeps.

Lemma keeps_enabled_showCaptionWindow : keeps_enabled (showCaptionWindow env).
Proof. unfold showCaptionWindow. keeps. Qed.

Lemma keeps_enabled_hideCaptionWindow : keeps_enabled (hideCaptionWindow env).
Proof. unfold hideCaptionWindow. keeps. Qed.

#[local] Hint Resolve keeps_enabled_showCaptionWindow
  keeps_enabled_hideCaptionWindow : keeps.

Lemma keeps_enabled_createCaptionWindow :
  keeps_enabled (createCaptionWindow env).
Proof. unfold createCaptionWindow. keeps. Qed.

#[local] Hint Resolve keeps_enabled_createCaptionWindow : keeps.

Lemma keeps_enabled_toggle_steps enabled :
  keeps_enabled (toggle_steps env enabled).
Proof. unfold toggle_steps. keeps. Qed.

Lemma keeps_enabled_final_verification :
  keeps_enabled (final_verification env).
Proof. unfold final_verification. keeps. Qed.

Lemma returns_ret A (a : A) : returns (ret a).
Proof. intros w. exists a, w. reflexivity. Qed.

Lemma returns_bind A B (m : M A) (k : A -> M B) :
  returns m -> (forall a, returns (k a)) -> returns (bind m k).
Proof.
  intros Hm Hk w. unfold bind. destruct (Hm w) as (a & w1 & ->). apply Hk.
Qed.

Lemma returns_try_catch A (m : M A) h :
  (forall e, returns (h e)) -> returns (try_catch m h).
Proof.
  intros Hh w. unfold try_catch. destruct (m w) as [[a|e] w1].
  - exists a, w1. reflexivity.
  - apply Hh.
Qed.

(** [toggleCaptionOverlay] never throws, [showCaptionWindow] and
    [hideCaptionWindow] neither. *)
Lemma toggleCaptionOverlay_returns enabled :
  returns (toggleCaptionOverlay env enabled).
Proof.
  unfold toggleCaptionOverlay. apply returns_try_catch. intros e.
  apply returns_bind; [|intros _; apply returns_ret].
  apply returns_try_catch. intros _. apply returns_ret.
Qed.

Lemma showCaptionWindow_returns : returns (showCaptionWindow env).
Proof.
  unfold showCaptionWindow. intros w. unfold bind, this_captionWindow.
  destruct (captionWindow w).
  - apply returns_try_catch. intros _. apply returns_ret.
  - apply returns_ret.
Qed.

Lemma hideCaptionWindow_returns : returns (hideCaptionWindow env).
Proof.
  unfold hideCaptionWindow. intros w. unfold bind, this_captionWindow.
  destruct (captionWindow w).
  - apply returns_try_catch. intros _. apply returns_ret.
  - apply returns_ret.
Qed.

(** When [createCaptionWindow] throws there was no window before, there is
    none after, and a window that had been allocated has been closed. *)
Lemma createCaptionWindow_throws w e w1 :
  createCaptionWindow env w = (Throw e, w1) ->
  captionWindow w = None /\ captionWindow w1 = None
  /\ (fails env (length (calls w)) screen_getPrimaryDisplay = None ->
      fails env (S (length (calls w))) new_BrowserWindow = None ->
      hd_error (calls w1) = Some close).
Proof.
  destruct w as [[bw|] en cs]; exec; path; intros H; inversion H; subst;
    (split; [reflexivity|]; split; [reflexivity|]); cbn [length] in *;
    intros; try congruence; reflexivity.
Qed.


(** C9, amended.  When [toggleCaptionOverlay] returns a failure result and
    its create, show or hide step threw, [captionEnabled] has the value it
    had before the call; when that step completed, so that the failure comes
    from the final verification, [captionEnabled] has the requested value. *)
Theorem toggle_failure_flag enabled w err stk w' :
  toggleCaptionOverlay env enabled w = (Return (Failure err stk), w') ->
  match toggle_steps env enabled w with
  | (Throw _, _) => captionEnabled w' = captionEnabled w
  | (Return _, _) => captionEnabled w' = enabled
  end.
Proof.
  unfold toggleCaptionOverlay.
  set (cleanup := fun error : Error =>
         bind (try_catch
                 (bind this_captionWindow
                    (fun cw => match cw with
                               | Some _ => method env hide hidden
                               | None => ret tt
                               end))
                 (fun _ => ret tt))
              (fun _ => ret (Failure (message error) (stack error)))).
  assert (Hcleanup : forall e, keeps_enabled (cleanup e)).
  { intros e. unfold cleanup. keeps. }
  unfold try_catch at 1. unfold bind at 1.
  pose proof (keeps_enabled_toggle_steps enabled w) as Hsteps.
  destruct (toggle_steps env enabled w) as [[[]|e] w1]; cbn [fst snd] in Hsteps.
  - unfold set_captionEnabled at 1. unfold bind at 1.
    set (w2 := {| captionWindow := captionWindow w1;
                  captionEnabled := enabled;
                  calls := calls w1 |}).
    assert (Hrest : keeps_enabled
              (bind (final_verification env)
                 (fun finalState =>
                    bind this_captionEnabled
                      (fun en => ret (Success en finalState))))).
    { pose proof keeps_enabled_final_verification. keeps. }
    specialize (Hrest w2).
    destruct (bind (final_verification env) _ w2) as [[r|e] w3];
      cbn [fst snd] in Hrest.
    + intros H. inversion H; subst. exact Hrest.
    + intros H. pose proof (Hcleanup e w3) as Hc. rewrite H in Hc.
      cbn [fst snd] in Hc. rewrite Hc. exact Hrest.
  - intros H. pose proof (Hcleanup e w1) as Hc. rewrite H in Hc.
    cbn [fst snd] in Hc. rewrite Hc. exact Hsteps.
Qed.

(** C10.  [destroyCaptionWindow] returns, whatever the platform calls do and
    whether or not there is a window, and leaves the window handle [null] and
    [captionEnabled] false; with no window it makes no platform call. *)
Theorem destroyCaptionWindow_clears w :
  exists w', destroyCaptionWindow env w = (Return tt, w')
    /\ captionWindow w' = None /\ captionEnabled w' = false
    /\ (captionWindow w = None -> calls w' = calls w).
Proof.
  destruct w as [[bw|] en cs]; exec; path; eexists;
    (split; [reflexivity|]); repeat split; intros; try discriminate.
Qed.

(** [updateCaptionText] sends the window at most the caption state it has
    made of its argument. *)
Lemma updateCaptionText_delivers now data w :
  delivered (snd (updateCaptionText env now data w)) = delivered w
  \/ delivered (snd (updateCaptionText env now data w))
     = delivered w ++ [make_bilingual_data now data].
Proof.
  destruct w as [[bw|] en cs]; exec; path; try (left; reflexivity).
  destruct (win_destroyed bw); exec; path; auto.
Qed.

(** With a live window and a platform that lets the two calls through, the
    caption state is sent. *)
Lemma updateCaptionText_pushes now data w bw :
  captionWindow w = Some bw -> win_destroyed bw = false ->
  fails env (length (calls w)) isDestroyed = None ->
  fails env (S (length (calls w))) webContents_send = None ->
  exists w', updateCaptionText env now data w = (Return tt, w')
             /\ delivered w' = delivered w ++ [make_bilingual_data now data].
Proof.
  intros Hw Hd H1 H2. destruct w as [cw en cs]. cbn in Hw, H1, H2. subst cw.
  exec. rewrite H1. exec. rewrite Hd. exec. cbn [length]. rewrite H2. exec.
  eexists. split; reflexivity.
Qed.

Lemma get_missing (data : gmap string JS.Val) k :
  data !! k = None -> JS.get data k = JS.Undefined.
Proof. unfold JS.get. intros ->. reflexivity. Qed.

(** A window that [createCaptionWindow] has just made has been sent
    nothing. *)
Lemma createCaptionWindow_fresh w w1 :
  captionWindow w = None ->
  createCaptionWindow env w = (Return tt, w1) ->
  delivered w1 = [].
Proof.
  destruct w as [cw en cs]. cbn. intros ->. exec; path;
    intros H; inversion H; reflexivity.
Qed.


Lemma or_true_truthy v : JS.truthy (v ||' JS.Bool true) = true.
Proof.
  unfold JS.or. destruct (JS.truthy v) eqn:E; [exact E | reflexivity].
Qed.

Lemma or_true_boolean v :
  JS.is_optional_boolean v = true -> v ||' JS.Bool true = JS.Bool true.
Proof. destruct v as [| |[]| | |]; cbn; intros; congruence. Qed.

(** The preload script hands on unchanged what [updateCaptionText] sends. *)
Lemma preload_passes_canonical now now' (data : gmap string JS.Val) :
  now <> 0%Z ->
  Preload.processedData now' (make_bilingual_data now data)
  = make_bilingual_data now data.
Proof.
  intros Hnow. unfold Preload.processedData, make_bilingual_data.
  cbn [original translation confidence sourceLanguage targetLanguage
       fromTranscription isRealTime timestamp].
  assert (Hchain : forall a b s,
            JS.truthy (a ||' b ||' JS.Str s) = false ->
            a ||' b ||' JS.Str s = JS.Str s).
  { intros a b s. unfold JS.or.
    destruct (JS.truthy a) eqn:Ea; cbn; rewrite ?Ea; [congruence|].
    destruct (JS.truthy b) eqn:Eb; cbn; rewrite ?Eb; [congruence|].
    reflexivity. }
  assert (Hdef : forall a b s, JS.truthy (JS.Str s) = true ->
            (a ||' b ||' JS.Str s) ||' JS.Str s = a ||' b ||' JS.Str s).
  { intros a b s Hs. unfold JS.or at 1.
    destruct (JS.truthy (a ||' b ||' JS.Str s)) eqn:E; [reflexivity|].
    symmetry. apply Hchain. exact E. }
  assert (Hflag : forall a,
            (a ||' JS.Bool true) ||' JS.Bool false = a ||' JS.Bool true).
  { intros a. unfold JS.or at 1. rewrite or_true_truthy. reflexivity. }
  assert (Horig : forall a b,
            (a ||' b ||' JS.Str EmptyString) ||' JS.Undefined
              ||' JS.Str EmptyString
            = a ||' b ||' JS.Str EmptyString).
  { intros a b. unfold JS.or at 1 2.
    destruct (JS.truthy (a ||' b ||' JS.Str EmptyString)) eqn:E;
      cbn; rewrite ?E; [reflexivity|].
    symmetry. apply Hchain. exact E. }
  assert (Htrans : forall a b,
            (a ||' b ||' JS.Str EmptyString) ||' JS.Str EmptyString
            = a ||' b ||' JS.Str EmptyString).
  { intros a b. unfold JS.or at 1.
    destruct (JS.truthy (a ||' b ||' JS.Str EmptyString)) eqn:E;
      [reflexivity|].
    symmetry. apply Hchain. exact E. }
  rewrite Horig, Htrans, !Hflag, !Hdef by reflexivity.
  assert (Hnum : JS.is_number
            (if JS.is_number (JS.get data "confidence")
             then JS.get data "confidence" else JS.Num 0%float) = true).
  { destruct (JS.is_number (JS.get data "confidence")) eqn:E;
      [exact E|reflexivity]. }
  rewrite Hnum.
  assert (Ht : JS.truthy (JS.Int now) = true).
  { cbn. apply negb_true_iff. apply Z.eqb_neq. exact Hnow. }
  rewrite Ht. reflexivity.
Qed.

(** C8, amended.  In every caption state a call of [updateCaptionText]
    sends to the overlay window, whatever the argument, [fromTranscription]
    and [isRealTime] are truthy, so never [false]: each is the caller's value
    when that is truthy and [true] otherwise.  When the caller's value is a
    boolean or absent, as the declared type [fromTranscription?: boolean]
    says, the flag is [true], also when the caller passed [false], and it
    still is once the preload script has processed the state. *)
Theorem broadcast_flags_true now now' (data : gmap string JS.Val) w d :
  In d (delivered (snd (updateCaptionText env now data w))) ->
  In d (delivered w)
  \/ ((JS.truthy (fromTranscription d) = true
       /\ JS.truthy (isRealTime d) = true)
      /\ (fromTranscription d <> JS.Bool false
          /\ isRealTime d <> JS.Bool false)
      /\ fromTranscription d
         = (if JS.truthy (JS.get data "fromTranscription")
            then JS.get data "fromTranscription" else JS.Bool true)
      /\ isRealTime d
         = (if JS.truthy (JS.get data "isRealTime")
            then JS.get data "isRealTime" else JS.Bool true)
      /\ (JS.is_optional_boolean (JS.get data "fromTranscription") = true ->
          fromTranscription d = JS.Bool true
          /\ fromTranscription (Preload.processedData now' d) = JS.Bool true)
      /\ (JS.is_optional_boolean (JS.get data "isRealTime") = true ->
          isRealTime d = JS.Bool true
          /\ isRealTime (Preload.processedData now' d) = JS.Bool true)).
Proof.
  intros Hin.
  destruct (updateCaptionText_delivers now data w) as [H|H];
    rewrite H in Hin; [left; exact Hin|].
  apply in_app_or in Hin. destruct Hin as [Hin|[<-|[]]]; [left; exact Hin|].
  right. unfold Preload.processedData, make_bilingual_data;
    cbn [fromTranscription isRealTime].
  split; [|split; [|split; [|split; [|split]]]].
  - split; apply or_true_truthy.
  - split; intros E.
    + pose proof (or_true_truthy (JS.get data "fromTranscription")) as T.
      rewrite E in T. discriminate.
    + pose proof (or_true_truthy (JS.get data "isRealTime")) as T.
      rewrite E in T. discriminate.
  - reflexivity.
  - reflexivity.
  - intros Hb. rewrite (or_true_boolean _ Hb). split; reflexivity.
  - intros Hb. rewrite (or_true_boolean _ Hb). split; reflexivity.
Qed.

End MainFacts.


Lemma toggle_failure_flag_witness :
  Main.toggleCaptionOverlay MainScenario.load_fails true Main.initial
  = (Main.Return
       (Main.Failure "Failed to load caption content: ERR_FILE_NOT_FOUND"
          "Error: Failed to load caption content: ERR_FILE_NOT_FOUND"),
     MainScenario.after_load_failure)
  /\ Main.captionEnabled MainScenario.after_load_failure
     = Main.captionEnabled Main.initial.
Proof.
  assert (Ht : Main.toggleCaptionOverlay MainScenario.load_fails true
                 Main.initial
               = (Main.Return
                    (Main.Failure
                       "Failed to load caption content: ERR_FILE_NOT_FOUND"
                       "Error: Failed to load caption content: ERR_FILE_NOT_FOUND"),
                  MainScenario.after_load_failure))
    by (vm_compute; reflexivity).
  split; [exact Ht|].
  exact (toggle_failure_flag MainScenario.load_fails true Main.initial
           _ _ _ Ht).
Defined.

(** C9, as stated, fails: on a platform whose [isVisible()] throws,
    [toggleCaptionOverlay(true)] creates the window, sets [captionEnabled]
    and then fails in the final verification; it returns a failure result
    with the flag changed from false to true. *)
Lemma toggle_failure_flag_counterexample :
  exists err stk w',
    Main.toggleCaptionOverlay MainScenario.isVisible_fails true Main.initial
    = (Main.Return (Main.Failure err stk), w')
    /\ Main.captionEnabled Main.initial = false
    /\ Main.captionEnabled w' = true
    /\ Main.captionEnabled w' <> Main.captionEnabled Main.initial.
Proof.
  do 3 eexists. split; [vm_compute; reflexivity|].
  cbn. repeat split. discriminate.
Qed.


Lemma broadcast_flags_true_witness :
  let d := Main.make_bilingual_data 1000 MainScenario.denying_payload in
  In d (Main.delivered
          (snd (Main.updateCaptionText Scenario.env 1000
                  MainScenario.denying_payload Scenario.overlay_on)))
  /\ Main.fromTranscription d = JS.Bool true
  /\ Main.isRealTime d = JS.Bool true.
Proof.
  cbv zeta.
  assert (Hin : In (Main.make_bilingual_data 1000 MainScenario.denying_payload)
                  (Main.delivered
                     (snd (Main.updateCaptionText Scenario.env 1000
                             MainScenario.denying_payload
                             Scenario.overlay_on))))
    by (vm_compute; left; reflexivity).
  split; [exact Hin|].
  destruct (broadcast_flags_true Scenario.env 1000 1000
              MainScenario.denying_payload Scenario.overlay_on _ Hin)
    as [Hold|(_ & _ & _ & _ & Hf & Hr)].
  - vm_compute in Hold. destruct Hold.
  - split; [apply Hf|apply Hr]; reflexivity.
Defined.

(** C8, as stated, fails: a caller that passes the flags as the strings
    ["false"] gets them passed on as they are, since a non-empty string is
    truthy; the caption state sent to the overlay window then has
    [fromTranscription] and [isRealTime] equal to ["false"], not to
    [true]. *)
Lemma broadcast_flags_counterexample :
  exists d,
    Main.delivered
      (snd (Main.updateCaptionText Scenario.env 1000
              MainScenario.quoted_payload Scenario.overlay_on))
    = Main.delivered Scenario.overlay_on ++ [d]
    /\ Main.fromTranscription d = JS.Str "false"
    /\ Main.isRealTime d = JS.Str "false"
    /\ Main.fromTranscription d <> JS.Bool true
    /\ Main.isRealTime d <> JS.Bool true.
Proof.
  eexists. split; [vm_compute; reflexivity|].
  cbn. repeat split; discriminate.
Qed.

(** ** The transcription throttle *)

Section RendererFacts.
Import Renderer RendererScenario.
Variable ue : UiEnv.

Lemma gate_closed now msg st :
  throttled msg = true ->
  (now - lastTranscriptionUpdate st >? TRANSCRIPTION_UPDATE_THROTTLE)%Z
  = false ->
  snd (onmessage ue now msg st) = []
  /\ caption_view (fst (onmessage ue now msg st)) = caption_view st
  /\ fst (onmessage ue now msg st)
     = match msg with
       | msg_transcription_result _ _ => setIsTranscribing false st
       | _ => st
       end.
Proof.
  intros Ht Hg. destruct msg as [|data|? ?| | |e [result|]|?| |? ? ? ?|];
    try discriminate Ht; cbn [onmessage].
  - unfold on_transcription. rewrite Hg. auto.
  - cbn [throttled] in Ht.
    destruct (if e then res_translation result else None); [discriminate|].
    unfold on_transcription_result. rewrite Hg. auto.
Qed.

Lemma gate_open now msg st :
  throttled msg = true ->
  (now - lastTranscriptionUpdate st >? TRANSCRIPTION_UPDATE_THROTTLE)%Z
  = true ->
  lastTranscriptionUpdate (fst (onmessage ue now msg st)) = now.
Proof.
  intros Ht Hg. destruct msg as [|data|? ?| | |e [result|]|?| |? ? ? ?|];
    try discriminate Ht; cbn [onmessage].
  - unfold on_transcription. rewrite Hg.
    destruct (nonblank (transcript data)); [|reflexivity].
    destruct (has_text (res_translation data)); reflexivity.
  - cbn [throttled] in Ht.
    destruct (if e then res_translation result else None); [discriminate|].
    unfold on_transcription_result. rewrite Hg.
    destruct (nonblank (transcript result)); [|reflexivity].
    destruct (has_text (res_translation result)); reflexivity.
Qed.

Lemma not_throttled_keeps_stamp now msg st :
  throttled msg = false ->
  lastTranscriptionUpdate (fst (onmessage ue now msg st))
  = lastTranscriptionUpdate st.
Proof.
  intros Ht. destruct msg as [|data|[?|] [?|]| | |e [result|]|?| |? ? ? ?|];
    try discriminate Ht; cbn [onmessage fst]; try reflexivity.
  - unfold on_audio_chunk.
    destruct (_ && _); reflexivity.
  - cbn [throttled] in Ht.
    destruct (if e then res_translation result else None); [|discriminate].
    reflexivity.
  - destruct (e || _); reflexivity.
  - unfold on_audio_source_status.
    destruct (_ && _); [reflexivity|]. destruct (_ && _); reflexivity.
Qed.

Lemma accepted_iff now msg st :
  accepted ue now msg st = true <->
  throttled msg = true
  /\ (now - lastTranscriptionUpdate st > TRANSCRIPTION_UPDATE_THROTTLE)%Z.
Proof.
  unfold accepted. destruct (throttled msg) eqn:Ht.
  - destruct (now - lastTranscriptionUpdate st
              >? TRANSCRIPTION_UPDATE_THROTTLE)%Z eqn:Hg.
    + rewrite (gate_open _ _ _ Ht Hg).
      unfold TRANSCRIPTION_UPDATE_THROTTLE in *.
      split; [intros _; split; [reflexivity|lia]|].
      intros _. apply negb_true_iff. apply Z.eqb_neq. lia.
    + destruct (gate_closed _ _ _ Ht Hg) as (_ & Hv & _).
      assert (E : lastTranscriptionUpdate (fst (onmessage ue now msg st))
                  = lastTranscriptionUpdate st).
      { unfold caption_view in Hv. congruence. }
      rewrite E, Z.eqb_refl. cbn. split; [discriminate|]. intros [_ H]. lia.
  - rewrite (not_throttled_keeps_stamp _ _ _ Ht), Z.eqb_refl. cbn.
    split; [discriminate|]. intros [H _]. discriminate.
Qed.

Lemma accepted_times_after events : forall st t,
  In t (accepted_times ue events st) ->
  (t > lastTranscriptionUpdate st + TRANSCRIPTION_UPDATE_THROTTLE)%Z.
Proof.
  induction events as [|[now msg] rest IH]; intros st t; cbn [accepted_times].
  - intros [].
  - destruct (accepted ue now msg st) eqn:Ha.
    + apply accepted_iff in Ha. destruct Ha as [Ht Hg].
      assert (Hs : lastTranscriptionUpdate (fst (onmessage ue now msg st)) = now).
      { apply gate_open; [exact Ht|]. lia. }
      intros [<-|Hin]; [lia|]. apply IH in Hin. rewrite Hs in Hin.
      unfold TRANSCRIPTION_UPDATE_THROTTLE in *. lia.
    + intros Hin. apply IH in Hin.
      assert (Hs : lastTranscriptionUpdate (fst (onmessage ue now msg st))
                   = lastTranscriptionUpdate st).
      { unfold accepted in Ha. apply negb_false_iff in Ha.
        apply Z.eqb_eq in Ha. exact Ha. }
      rewrite Hs in Hin. exact Hin.
Qed.

Lemma window_holds_one events : forall st start,
  (length (List.filter (in_window start) (accepted_times ue events st))
   <= 1)%nat.
Proof.
  induction events as [|[now msg] rest IH]; intros st start; cbn [accepted_times].
  - cbn. lia.
  - destruct (accepted ue now msg st) eqn:Ha; [|apply IH].
    cbn [List.filter]. destruct (in_window start now) eqn:Hw; [|apply IH].
    cbn [length]. 
    assert (E : List.filter (in_window start)
                  (accepted_times ue rest (fst (onmessage ue now msg st))) = []).
    { apply accepted_iff in Ha. destruct Ha as [Ht Hg].
      assert (Hs : lastTranscriptionUpdate (fst (onmessage ue now msg st)) = now).
      { apply gate_open; [exact Ht|]. lia. }
      destruct (List.filter _ _) as [|t l] eqn:Hf; [reflexivity|exfalso].
      assert (Hin : In t (List.filter (in_window start)
                (accepted_times ue rest (fst (onmessage ue now msg st))))).
      { rewrite Hf. left. reflexivity. }
      apply filter_In in Hin. destruct Hin as [Hin Hwt].
      apply accepted_times_after in Hin. rewrite Hs in Hin.
      unfold in_window in *. unfold TRANSCRIPTION_UPDATE_THROTTLE in *. lia. }
    rewrite E. cbn. lia.
Qed.


Lemma onmessage_same_captions now msg st st' :
  same_captions st st' ->
  snd (onmessage ue now msg st) = snd (onmessage ue now msg st')
  /\ same_captions (fst (onmessage ue now msg st))
       (fst (onmessage ue now msg st')).
Proof.
  unfold same_captions. destruct st, st'. cbn. intros H.
  injection H as -> -> -> -> -> -> -> -> -> -> -> ->.
  destruct msg as [|data|[?|] [?|]| | |e [result|]|?| |? ? ? ?|];
    cbn [onmessage]; try (split; reflexivity).
  - unfold on_transcription; cbn.
    repeat match goal with
           | |- context [if ?c then _ else _] => destruct c
           end; split; reflexivity.
  - unfold on_audio_chunk; cbn.
    repeat match goal with
           | |- context [if ?c then _ else _] => destruct c
           end; split; reflexivity.
  - destruct (if e then res_translation result else None).
    + unfold on_enhancement; cbn. split; reflexivity.
    + unfold on_transcription_result; cbn.
      repeat match goal with
             | |- context [if ?c then _ else _] => destruct c
             end; split; reflexivity.
  - cbn. destruct (e || _); split; reflexivity.
  - unfold on_audio_source_status; cbn.
    repeat match goal with
           | |- context [if ?c then _ else _] => destruct c
           end; split; reflexivity.
Qed.

Lemma run_same_captions events : forall st st',
  same_captions st st' -> snd (run ue events st) = snd (run ue events st').
Proof.
  induction events as [|[now msg] rest IH]; intros st st' H; cbn [run].
  - reflexivity.
  - destruct (onmessage_same_captions now msg st st' H) as [Hs Hc].
    destruct (onmessage ue now msg st) as [st1 sent].
    destruct (onmessage ue now msg st') as [st1' sent'].
    cbn [fst snd] in Hs, Hc. subst sent'.
    specialize (IH st1 st1' Hc).
    destruct (run ue rest st1), (run ue rest st1'). cbn [snd] in *. congruence.
Qed.

(** The gate is strict: a message exactly 40 ms after the last accepted one
    is rejected. *)
Lemma gate_boundary_rejected now msg st :
  (now - lastTranscriptionUpdate st = TRANSCRIPTION_UPDATE_THROTTLE)%Z ->
  accepted ue now msg st = false.
Proof.
  intros H. destruct (accepted ue now msg st) eqn:Ha; [|reflexivity].
  apply accepted_iff in Ha. lia.
Qed.

(** C2.  In a run of the handler over any sequence of messages, from any
    state, at most one accepted transcription update has its clock reading in
    any window of 40 ms (ends included).  A message that goes through the
    throttle is accepted only if the clock reading is at least 40 ms after
    the stamp of the last accepted one, and then becomes the stamp.  A
    message the throttle rejects passes nothing to the overlay and leaves the
    caption state as it was, and the messages after it are handled as if it
    had never arrived. *)
Theorem transcription_throttle events st start now msg :
  (length (List.filter (in_window start) (accepted_times ue events st))
   <= 1)%nat
  /\ (throttled msg = true -> accepted ue now msg st = true ->
      (now - lastTranscriptionUpdate st >= TRANSCRIPTION_UPDATE_THROTTLE)%Z
      /\ lastTranscriptionUpdate (fst (onmessage ue now msg st)) = now)
  /\ (throttled msg = true -> accepted ue now msg st = false ->
      snd (onmessage ue now msg st) = []
      /\ caption_view (fst (onmessage ue now msg st)) = caption_view st
      /\ snd (run ue ((now, msg) :: events) st) = [] :: snd (run ue events st)).
Proof.
  split; [apply window_holds_one|]. split.
  - intros Ht Ha. apply accepted_iff in Ha. destruct Ha as [_ Hg].
    split; [lia|]. apply gate_open; [exact Ht|]. lia.
  - intros Ht Ha.
    assert (Hg : (now - lastTranscriptionUpdate st
                  >? TRANSCRIPTION_UPDATE_THROTTLE)%Z = false).
    { destruct (_ >? _)%Z eqn:Hg; [|reflexivity].
      assert (accepted ue now msg st = true)
        by (apply accepted_iff; split; [exact Ht|lia]).
      congruence. }
    destruct (gate_closed now msg st Ht Hg) as (Hs & Hv & Hst).
    split; [exact Hs|]. split; [exact Hv|].
    cbn [run]. destruct (onmessage ue now msg st) as [st1 sent] eqn:E.
    cbn [fst snd] in Hs, Hst. subst sent.
    assert (Hc : same_captions st1 st).
    { rewrite Hst. unfold same_captions.
      destruct msg; reflexivity. }
    pose proof (run_same_captions events st1 st Hc) as R.
    destruct (run ue events st1), (run ue events st).
    cbn [snd] in *. congruence.
Qed.

End RendererFacts.

Lemma transcription_throttle_witness :
  let m1 := Renderer.msg_transcription (Scenario.utterance "uno" None None) in
  let m2 :=
    Renderer.msg_transcription (Scenario.utterance "uno dos" None None) in
  let st1 :=
    fst (Renderer.onmessage Scenario.electron 100 m1 Renderer.initial) in
  (length (List.filter (RendererScenario.in_window 100)
             (RendererScenario.accepted_times Scenario.electron Scenario.burst
                Renderer.initial)) <= 1)%nat
  /\ ((100 - Renderer.lastTranscriptionUpdate Renderer.initial
       >= Renderer.TRANSCRIPTION_UPDATE_THROTTLE)%Z
      /\ Renderer.lastTranscriptionUpdate st1 = 100%Z)
  /\ (snd (Renderer.onmessage Scenario.electron 120 m2 st1) = []
      /\ RendererScenario.caption_view
           (fst (Renderer.onmessage Scenario.electron 120 m2 st1))
         = RendererScenario.caption_view st1).
Proof.
  cbv zeta.
  destruct (transcription_throttle Scenario.electron Scenario.burst
              Renderer.initial 100 100
              (Renderer.msg_transcription (Scenario.utterance "uno" None None)))
    as (Hw & Ha & _).
  destruct (transcription_throttle Scenario.electron []
              (fst (Renderer.onmessage Scenario.electron 100
                      (Renderer.msg_transcription
                         (Scenario.utterance "uno" None None))
                      Renderer.initial))
              100 120
              (Renderer.msg_transcription
                 (Scenario.utterance "uno dos" None None)))
    as (_ & _ & Hr).
  split; [exact Hw|]. split.
  - apply Ha; vm_compute; reflexivity.
  - destruct Hr as (Hs & Hv & _); [reflexivity|vm_compute; reflexivity|].
    split; [exact Hs|exact Hv].
Defined.

(** ** From a message to the overlay *)

Section PipelineFacts.
Import Renderer Pipeline.

Lemma payload_properties (o tv c ft ts lg rt : JS.Val) :
  let p : gmap string JS.Val :=
    list_to_map [("original", o); ("translation", tv); ("confidence", c);
                 ("fromTranscription", ft); ("timestamp", ts);
                 ("language", lg); ("isRealTime", rt)] in
  JS.get p "original" = o /\ JS.get p "text" = JS.Undefined
  /\ JS.get p "translation" = tv /\ JS.get p "translated" = JS.Undefined
  /\ JS.get p "confidence" = c
  /\ JS.get p "sourceLanguage" = JS.Undefined
  /\ JS.get p "source_language" = JS.Undefined
  /\ JS.get p "targetLanguage" = JS.Undefined
  /\ JS.get p "target_language" = JS.Undefined
  /\ JS.get p "fromTranscription" = ft /\ JS.get p "isRealTime" = rt.
Proof. vm_compute. repeat split. Qed.

Lemma or_empty_idem v :
  (v ||' JS.Str EmptyString) ||' JS.Undefined ||' JS.Str EmptyString
  = v ||' JS.Str EmptyString.
Proof.
  unfold JS.or. destruct (JS.truthy v) eqn:E; cbn; rewrite ?E; reflexivity.
Qed.

Lemma or_undefined_empty v :
  v ||' JS.Undefined ||' JS.Str EmptyString = v ||' JS.Str EmptyString.
Proof.
  unfold JS.or. destruct (JS.truthy v) eqn:E; cbn; rewrite ?E; reflexivity.
Qed.

(** What the main process makes of a payload of [updateCaptionOverlay]. *)
Lemma overlay_payload ue now now_main o t c :
  has_updateCaptionText ue = true ->
  exists p,
    updateCaptionOverlay ue now o t c = [p]
    /\ Main.make_bilingual_data now_main p
       = {| Main.original := o ||' JS.Str EmptyString;
            Main.translation := t ||' JS.Str EmptyString;
            Main.confidence := JS.Num c;
            Main.sourceLanguage := JS.Str "auto";
            Main.targetLanguage := JS.Str "en";
            Main.fromTranscription := JS.Bool true;
            Main.isRealTime := JS.Bool true;
            Main.timestamp := now_main |}.
Proof.
  intros H. unfold updateCaptionOverlay. rewrite H. eexists.
  split; [reflexivity|].
  unfold Main.make_bilingual_data.
  match goal with
  | |- context [JS.get (list_to_map [(_, ?o); (_, ?tv); (_, ?c); (_, ?ft);
                                     (_, ?ts); (_, ?lg); (_, ?rt)]) "original"] =>
      destruct (payload_properties o tv c ft ts lg rt)
        as (-> & -> & -> & -> & -> & -> & -> & -> & -> & -> & ->)
  end.
  rewrite or_empty_idem, or_undefined_empty. reflexivity.
Qed.

Lemma enhancement_delivered env ue a s result tr bw :
  message a = msg_transcription_result true (Some result) ->
  res_translation result = Some tr ->
  has_updateCaptionText ue = true ->
  Main.captionWindow (proc s) = Some bw -> Main.win_destroyed bw = false ->
  Main.fails env (length (Main.calls (proc s))) Main.isDestroyed = None ->
  Main.fails env (S (length (Main.calls (proc s)))) Main.webContents_send
  = None ->
  ui (handle env ue a s)
  = setTranslationConfidence 90%float
      (setTranslation (of_string (text tr)) (ui s))
  /\ Main.delivered (proc (handle env ue a s))
     = Main.delivered (proc s)
       ++ [ {| Main.original :=
                 of_string (transcript result) ||' JS.Str EmptyString;
               Main.translation := of_string (text tr) ||' JS.Str EmptyString;
               Main.confidence := JS.Num (percent (res_confidence result));
               Main.sourceLanguage := JS.Str "auto";
               Main.targetLanguage := JS.Str "en";
               Main.fromTranscription := JS.Bool true;
               Main.isRealTime := JS.Bool true;
               Main.timestamp := at_main a |} ].
Proof.
  intros Hm Ht Hu Hw Hd H1 H2. unfold handle. rewrite Hm. cbn [onmessage].
  rewrite Ht. unfold on_enhancement. cbn [ui proc]. split; [reflexivity|].
  destruct (overlay_payload ue (at_renderer a) (at_main a)
              (of_string (transcript result)) (of_string (text tr))
              (percent (res_confidence result)) Hu) as (p & -> & Hp).
  cbn [deliver].
  destruct (updateCaptionText_pushes env (at_main a) p (proc s) bw
              Hw Hd H1 H2)
    as (w' & Hr & Hdel).
  rewrite Hr. cbn [snd]. rewrite Hdel, Hp. reflexivity.
Qed.

(** C1, amended.  When an enhancement message that carries a translation
    object is handled, with a live overlay window: in the renderer state only
    [translation] and [translationConfidence] change, to the improved text and
    to 90; the overlay is sent a new caption state made from the message
    alone, whose original is the transcript of the message, whose translation
    is the improved text, whose confidence is that of the message in percent,
    and whose timestamp is the clock reading of the main process when it
    publishes, not the timestamp of the transcription it improves. *)
Theorem enhancement_frame env ue a s result tr bw :
  message a = msg_transcription_result true (Some result) ->
  res_translation result = Some tr ->
  has_updateCaptionText ue = true ->
  Main.captionWindow (proc s) = Some bw -> Main.win_destroyed bw = false ->
  Main.fails env (length (Main.calls (proc s))) Main.isDestroyed = None ->
  Main.fails env (S (length (Main.calls (proc s)))) Main.webContents_send
  = None ->
  ui (handle env ue a s)
  = setTranslationConfidence 90%float
      (setTranslation (of_string (text tr)) (ui s))
  /\ shown_caption (handle env ue a s)
     = Some {| Main.original :=
                 of_string (transcript result) ||' JS.Str EmptyString;
               Main.translation := of_string (text tr) ||' JS.Str EmptyString;
               Main.confidence := JS.Num (percent (res_confidence result));
               Main.sourceLanguage := JS.Str "auto";
               Main.targetLanguage := JS.Str "en";
               Main.fromTranscription := JS.Bool true;
               Main.isRealTime := JS.Bool true;
               Main.timestamp := at_main a |}.
Proof.
  intros Hm Ht Hu Hw Hd H1 H2.
  destruct (enhancement_delivered env ue a s result tr bw Hm Ht Hu Hw Hd H1 H2)
    as [Hui Hdel].
  split; [exact Hui|]. unfold shown_caption. rewrite Hdel. apply last_snoc.
Qed.

(** C4, amended.  An enhancement message that carries a translation object
    takes effect whatever the current caption is: without looking for the
    utterance it refers to and whether or not a newer transcription has
    arrived, the handler overwrites [translation] with the improved text and
    sets [translationConfidence] to 90, leaves [transcription] and the
    throttle stamp as they are, and passes the transcript and the translation
    of the message itself to the overlay. *)
Theorem enhancement_always_applies ue now result tr st :
  res_translation result = Some tr ->
  let r := onmessage ue now (msg_transcription_result true (Some result)) st in
  translation (fst r) = of_string (text tr)
  /\ translationConfidence (fst r) = 90%float
  /\ transcription (fst r) = transcription st
  /\ lastTranscriptionUpdate (fst r) = lastTranscriptionUpdate st
  /\ (has_updateCaptionText ue = true ->
      exists p, snd r = [p]
        /\ JS.get p "original" = of_string (transcript result)
        /\ JS.get p "translation" = of_string (text tr) ||' JS.Str EmptyString).
Proof.
  intros Ht. cbn [onmessage]. rewrite Ht. unfold on_enhancement. cbn [fst snd].
  repeat split.
  intros Hu. unfold updateCaptionOverlay. rewrite Hu. eexists.
  split; [reflexivity|].
  match goal with
  | |- context [JS.get (list_to_map [(_, ?o); (_, ?tv); (_, ?c); (_, ?ft);
                                     (_, ?ts); (_, ?lg); (_, ?rt)]) "original"] =>
      destruct (payload_properties o tv c ft ts lg rt)
        as (-> & _ & -> & _)
  end.
  split; reflexivity.
Qed.

End PipelineFacts.

Lemma enhancement_frame_witness :
  let s1 := Pipeline.handle Scenario.env Scenario.electron Scenario.hola
              Scenario.session in
  let s2 := Pipeline.handle Scenario.env Scenario.electron Scenario.hello s1 in
  Pipeline.ui s2
  = Renderer.setTranslationConfidence 90%float
      (Renderer.setTranslation (JS.Str "Hello") (Pipeline.ui s1))
  /\ Pipeline.shown_caption s2
     = Some {| Main.original := JS.Str "Hola";
               Main.translation := JS.Str "Hello";
               Main.confidence := JS.Num 0%float;
               Main.sourceLanguage := JS.Str "auto";
               Main.targetLanguage := JS.Str "en";
               Main.fromTranscription := JS.Bool true;
               Main.isRealTime := JS.Bool true;
               Main.timestamp := 250 |}.
Proof.
  cbv zeta.
  refine (enhancement_frame Scenario.env Scenario.electron Scenario.hello
            (Pipeline.handle Scenario.env Scenario.electron Scenario.hola
               Scenario.session)
            (Scenario.utterance "Hola" None (Some "Hello")) _ _
            eq_refl eq_refl eq_refl _ _ _ _);
    vm_compute; reflexivity.
Defined.

(** C1, as stated, fails: after the transcription of "Hola" at t=100 and its
    enhancement at t=250 the caption state of the overlay has original "Hola"
    and translation "Hello", but its timestamp is 250, not 100. *)
Lemma enhancement_timestamp_counterexample :
  exists d,
    Pipeline.shown_caption
      (Pipeline.handle_all Scenario.env Scenario.electron
         [Scenario.hola; Scenario.hello] Scenario.session) = Some d
    /\ Main.original d = JS.Str "Hola"
    /\ Main.translation d = JS.Str "Hello"
    /\ Main.timestamp d = 250%Z
    /\ Main.timestamp d <> 100%Z.
Proof.
  eexists. split; [vm_compute; reflexivity|]. cbn. repeat split. discriminate.
Qed.

Lemma enhancement_always_applies_witness :
  let r := Renderer.onmessage Scenario.electron 250
             (Pipeline.message Scenario.hello)
             (Pipeline.ui
                (Pipeline.handle_all Scenario.env Scenario.electron
                   [Scenario.hola; Scenario.adios] Scenario.session)) in
  Renderer.translation (fst r) = JS.Str "Hello"
  /\ Renderer.translationConfidence (fst r) = 90%float
  /\ Renderer.transcription (fst r) = "Adios"
  /\ exists p, snd r = [p] /\ JS.get p "original" = JS.Str "Hola"
               /\ JS.get p "translation" = JS.Str "Hello".
Proof.
  cbv zeta.
  destruct (enhancement_always_applies Scenario.electron 250
              (Scenario.utterance "Hola" None (Some "Hello"))
              {| Renderer.text := Some "Hello";
                 Renderer.tr_source_language := None;
                 Renderer.tr_target_language := None;
                 Renderer.polisher_applied := None |}
              (Pipeline.ui
                 (Pipeline.handle_all Scenario.env Scenario.electron
                    [Scenario.hola; Scenario.adios] Scenario.session))
              eq_refl) as (H1 & H2 & H3 & _ & H5).
  split; [exact H1|]. split; [exact H2|].
  split; [etransitivity; [exact H3|vm_compute; reflexivity]|].
  destruct (H5 eq_refl) as (p & Hp & Ho & Ht).
  exists p. split; [exact Hp|]. split; [exact Ho|exact Ht].
Defined.

(** C4, as stated, fails: the transcription of "Hola" has been superseded by
    that of "Adios" when the enhancement of "Hola" arrives, and the
    enhancement is applied all the same: the translation becomes "Hello" and
    the overlay goes back to showing "Hola". *)
Lemma superseded_enhancement_counterexample :
  let s2 := Pipeline.handle_all Scenario.env Scenario.electron
              [Scenario.hola; Scenario.adios] Scenario.session in
  let s3 := Pipeline.handle Scenario.env Scenario.electron Scenario.hello s2 in
  Renderer.transcription (Pipeline.ui s2) = "Adios"
  /\ Renderer.translation (Pipeline.ui s2) = JS.Str "Goodbye"
  /\ Renderer.translation (Pipeline.ui s3) = JS.Str "Hello"
  /\ (exists d2 d3,
        Pipeline.shown_caption s2 = Some d2
        /\ Pipeline.shown_caption s3 = Some d3
        /\ Main.original d2 = JS.Str "Adios"
        /\ Main.original d3 = JS.Str "Hola"
        /\ Main.translation d3 = JS.Str "Hello")
  /\ Pipeline.ui s3 <> Pipeline.ui s2
  /\ Pipeline.shown_caption s3 <> Pipeline.shown_caption s2.
Proof.
  cbv zeta. split; [vm_compute; reflexivity|].
  split; [vm_compute; reflexivity|].
  split; [vm_compute; reflexivity|]. split.
  - do 2 eexists. split; [vm_compute; reflexivity|].
    split; [vm_compute; reflexivity|]. cbn. repeat split.
  - split.
    + intros E. apply (f_equal Renderer.translation) in E.
      vm_compute in E. discriminate E.
    + vm_compute. intros E. discriminate E.
Qed.

(** C3.  What the code does in the scenario: [start_capture] carries the
    configuration with source language "en" and target language "es"; the
    transcription with confidence 0.92 that follows reaches the overlay as a
    caption state with confidence 92, source language 'auto' and target
    language 'en'. *)
Theorem scenario_overlay_languages :
  Renderer.start_capture (Pipeline.ui Scenario.session_en_es)
  = {| Renderer.sample_rate := 16000; Renderer.channels := 1;
       Renderer.chunk_size := 1024; Renderer.buffer_duration := 1.0%float;
       Renderer.audio_source := "microphone";
       Renderer.source_language := "en"; Renderer.target_language := "es" |}
  /\ Pipeline.shown_caption
       (Pipeline.handle Scenario.env Scenario.electron Scenario.confident
          Scenario.session_en_es)
     = Some {| Main.original := JS.Str "Hello";
               Main.translation := JS.Str "Hola";
               Main.confidence := JS.Num 92%float;
               Main.sourceLanguage := JS.Str "auto";
               Main.targetLanguage := JS.Str "en";
               Main.fromTranscription := JS.Bool true;
               Main.isRealTime := JS.Bool true;
               Main.timestamp := 1001 |}.
Proof. split; vm_compute; reflexivity. Qed.

(** ** The audio segmenter *)

Section SegmenterFacts.
Import Segmenter.
Local Open Scope N_scope.

Lemma process_reason_of_cases c b s r :
  process_reason_of c b s = Some r ->
  match r with
  | max_duration_reached => max_buffer_duration c <= b
  | silence_break_detected =>
      b < max_buffer_duration c /\ min_buffer_duration c <= b
      /\ silence_threshold c <= s
  | target_duration_reached =>
      b < max_buffer_duration c
      /\ ~ (min_buffer_duration c <= b /\ silence_threshold c <= s)
      /\ target_buffer_duration c <= b
  end.
Proof.
  unfold process_reason_of.
  destruct (N.leb_spec (max_buffer_duration c) b).
  - intros [= <-]. lia.
  - destruct (N.leb_spec (min_buffer_duration c) b);
      destruct (N.leb_spec (silence_threshold c) s); cbn [andb];
      try (intros [= <-]; lia);
      (destruct (N.leb_spec (target_buffer_duration c) b); [|discriminate];
       intros [= <-]; lia).
Qed.

Lemma process_reason_of_none c b s :
  process_reason_of c b s = None -> b < target_buffer_duration c.
Proof.
  unfold process_reason_of.
  destruct (N.leb (max_buffer_duration c) b); [discriminate|].
  destruct (N.leb (min_buffer_duration c) b && N.leb (silence_threshold c) s);
    [discriminate|].
  destruct (N.leb_spec (target_buffer_duration c) b); [discriminate|].
  intros _. assumption.
Qed.

Lemma emitted_bounds c d frames : forall st seg,
  min_buffer_duration c <= target_buffer_duration c ->
  target_buffer_duration c + d <= max_buffer_duration c ->
  bufferDuration st = 0 \/ bufferDuration st < target_buffer_duration c ->
  In seg (emitted c d frames st) ->
  min_buffer_duration c <= duration seg <= max_buffer_duration c.
Proof.
  induction frames as [|f rest IH]; intros st seg Hc Hd Hst; cbn [emitted].
  - intros [].
  - unfold ingest.
    destruct (process_reason_of c _ _) as [r|] eqn:E.
    + intros [<-|Hin].
      * cbn [duration]. apply process_reason_of_cases in E.
        destruct r; lia.
      * apply (IH _ _ Hc Hd) in Hin; [exact Hin|]. left. reflexivity.
    + intros Hin. apply process_reason_of_none in E.
      apply (IH _ _ Hc Hd) in Hin; [exact Hin|]. right. exact E.
Qed.

Lemma emitted_reason c d frames : forall st seg,
  In seg (emitted c d frames st) ->
  exists s, process_reason_of c (duration seg) s = Some (reason seg).
Proof.
  induction frames as [|f rest IH]; intros st seg; cbn [emitted].
  - intros [].
  - unfold ingest. destruct (process_reason_of c _ _) as [r|] eqn:E.
    + intros [<-|Hin]; [|eapply IH; exact Hin]. cbn. eexists. exact E.
    + intros Hin. eapply IH; exact Hin.
Qed.


End SegmenterFacts.


